(** * MK-AI voice assistant (main.py): model and properties

    A shallow embedding of [main.py]: the [MKAI] class (dialect detection,
    canned responses, speech synthesis with fallback, feedback collection,
    text entry) and the interactive loop of the script.

    Python [str] values are sequences of Unicode code points.  Calls to
    external libraries (Whisper, the sentiment pipeline, Google Cloud TTS,
    gTTS, sounddevice, soundfile, the clock) are scripted: each turn of the
    loop comes with the outcome of every call it may make.  The console is a
    finite list of entries; reading past its end raises [EOFError], as
    Python's [input] does on a closed standard input. *)

From Stdlib Require Import List NArith ZArith QArith Bool String Ascii Lia.
Import ListNotations.

(** ** Python strings *)

Module PyStr.

(** A Python [str]: its code points, in order. *)
Definition str := list N.

(** UTF-8 decoding, used only to write the source's literals as they are
    printed in [main.py]. *)
Fixpoint utf8_decode (bs : list N) : str :=
  match bs with
  | [] => []
  | b :: r =>
      if (b <? 128)%N then b :: utf8_decode r
      else if (b <? 224)%N then
        match r with
        | c1 :: r1 =>
            (N.shiftl (N.land b 31) 6 + N.land c1 63)%N :: utf8_decode r1
        | _ => []
        end
      else if (b <? 240)%N then
        match r with
        | c1 :: c2 :: r2 =>
            (N.shiftl (N.land b 15) 12 + N.shiftl (N.land c1 63) 6
             + N.land c2 63)%N :: utf8_decode r2
        | _ => []
        end
      else
        match r with
        | c1 :: c2 :: c3 :: r3 =>
            (N.shiftl (N.land b 7) 18 + N.shiftl (N.land c1 63) 12
             + N.shiftl (N.land c2 63) 6 + N.land c3 63)%N :: utf8_decode r3
        | _ => []
        end
  end.

Definition u (s : string) : str :=
  utf8_decode (map N_of_ascii (list_ascii_of_string s)).

(** [a == b] *)
Fixpoint str_eqb (a b : str) : bool :=
  match a, b with
  | [], [] => true
  | x :: a', y :: b' => (x =? y)%N && str_eqb a' b'
  | _, _ => false
  end.

(** [t.startswith(p)] *)
Fixpoint startswith (p t : str) : bool :=
  match p, t with
  | [], _ => true
  | _ :: _, [] => false
  | x :: p', y :: t' => (x =? y)%N && startswith p' t'
  end.

(** [k in t]: [k] occurs in [t] as a run of consecutive code points. *)
Fixpoint str_contains (k t : str) : bool :=
  startswith k t
  || match t with
     | [] => false
     | _ :: t' => str_contains k t'
     end.

(** What [k in t] decides. *)
Definition occurs (k t : str) : Prop :=
  exists a b, t = a ++ k ++ b.

(** [str.lower] on the letters A-Z.  Code points outside A-Z are left as
    they are: Python maps none of them to a lower-case form containing an
    ASCII letter other than k (U+212A) or followed by a combining mark
    (U+0130), so comparisons of [t.lower()] with ['exit'] and ['y'] are
    decided by this part of the mapping. *)
Definition lower_char (c : N) : N :=
  if ((65 <=? c) && (c <=? 90))%N then (c + 32)%N else c.

Definition str_lower (t : str) : str := map lower_char t.

(** [str.isspace] for one code point. *)
Definition isspace (c : N) : bool :=
  (((9 <=? c) && (c <=? 13)) || ((28 <=? c) && (c <=? 32))
   || (c =? 133) || (c =? 160) || (c =? 5760)
   || ((8192 <=? c) && (c <=? 8202))
   || (c =? 8232) || (c =? 8233) || (c =? 8239) || (c =? 8287)
   || (c =? 12288))%N.

Fixpoint lstrip (t : str) : str :=
  match t with
  | [] => []
  | c :: t' => if isspace c then lstrip t' else t
  end.

Definition rstrip (t : str) : str := rev (lstrip (rev t)).

(** [t.strip()] *)
Definition strip (t : str) : str := rstrip (lstrip t).

(** Truth value of a [str]: non-empty. *)
Definition truthy (t : str) : bool :=
  match t with [] => false | _ :: _ => true end.

End PyStr.
Import PyStr.

(** ** Dialect detection *)

Definition msa : str := Eval vm_compute in u "msa".

(** [self.dialect_map], assigned once in [__init__] and never changed; a
    [dict] iterates in insertion order. *)
Definition dialect_map : list (str * list str) := Eval vm_compute in
  [ (u "egyptian",  [u "مش"; u "هعمل"; u "عاوز"]);
    (u "gulf",      [u "شلونك"; u "وينك"; u "ابشر"]);
    (u "levantine", [u "شو أخبارك"; u "مشان الله"; u "يما"]) ].

(** [any(keyword in text for keyword in keywords)] *)
Definition any_keyword_in (keywords : list str) (text : str) : bool :=
  existsb (fun keyword => str_contains keyword text) keywords.

(** The [for ... in items: if ...: return dialect] loop of
    [detect_dialect], then [return 'msa']. *)
Fixpoint detect_dialect_in (items : list (str * list str)) (text : str) : str :=
  match items with
  | [] => msa
  | (dialect, keywords) :: rest =>
      if any_keyword_in keywords text then dialect
      else detect_dialect_in rest text
  end.

Definition detect_dialect (text : str) : str :=
  detect_dialect_in dialect_map text.

(** Arabic diacritic marks removed by camel_tools' [dediac_ar]: fathatan
    to sukun (U+064B-U+0652) and superscript alef (U+0670).  The tatweel
    (U+0640) is kept, as in camel_tools 1.6; earlier releases deleted it
    too, and the script pins no release. *)
Definition is_ar_diac (c : N) : bool :=
  (((1611 <=? c) && (c <=? 1618)) || (c =? 1648))%N.

(** [dediac_ar(s)]: every diacritic mark deleted, the rest kept in order. *)
Definition dediac_ar (s : str) : str :=
  filter (fun c => negb (is_ar_diac c)) s.

(** ** Exceptions, results and the console *)

Inductive exn :=
| KeyboardInterrupt
| EOFError
| KeyError (key : str)
| IndexError
| TypeError
| OtherError.

(** [isinstance(e, Exception)]: [KeyboardInterrupt] derives from
    [BaseException] only, so [except Exception] lets it through. *)
Definition is_Exception (e : exn) : bool :=
  match e with
  | KeyboardInterrupt => false
  | _ => true
  end.

Inductive res (A : Type) :=
| Ok (a : A)
| Raise (e : exn).
Arguments Ok {A} a.
Arguments Raise {A} e.

(** What the user does at an [input(...)] prompt: types a line, or presses
    Ctrl-C.  The end of the list is the end of standard input. *)
Inductive console_event :=
| Line (text : str)
| CtrlC.

(** ** State of the assistant *)

(** One entry of [feedback_db]: the dict built in [save_feedback]. *)
Record FeedbackRecord := mkFeedback {
  fb_timestamp : N;
  fb_input : str;
  fb_response : str;
  fb_correction : str
}.

(** The attributes of an [MKAI] object that the program reads or writes
    after construction.  [stt_model] and [sentiment_analyzer] are the
    external models, scripted in [Env] below. *)
Record MKAI := mkMKAI {
  tts_client : option unit;
  use_google_tts : bool;
  feedback_db : list FeedbackRecord;
  emotion_log : list (str * Q)
}.

Record World := mkWorld {
  bot : MKAI;
  console : list console_event
}.

Definition set_use_google_tts (b : bool) (w : World) : World :=
  mkWorld (mkMKAI (tts_client (bot w)) b (feedback_db (bot w))
             (emotion_log (bot w)))
          (console w).

Definition append_feedback (r : FeedbackRecord) (w : World) : World :=
  mkWorld (mkMKAI (tts_client (bot w)) (use_google_tts (bot w))
             (feedback_db (bot w) ++ [r]) (emotion_log (bot w)))
          (console w).

Definition set_console (c : list console_event) (w : World) : World :=
  mkWorld (bot w) c.

(** ** Observable actions *)

Inductive message :=
| Msg_google_failed
| Msg_fallback_failed
| Msg_detected_dialect (dialect : str)
| Msg_recording
| Msg_recording_complete
| Msg_error_recording
| Msg_ensure_microphone
| Msg_enter_some_text
| Msg_user_voice (text dialect : str)
| Msg_user_text (text : str) (dialect : option str)
| Msg_detected_emotion (emotion : str) (confidence : Q)
| Msg_bot (response : str)
| Msg_training
| Msg_saved (entries : nat).

Inductive prompt :=
| Prompt_enter_text
| Prompt_was_good
| Prompt_correct_response.

Inductive action :=
| Stdout (m : message)
| Input (p : prompt)
| Sd_rec
| Sf_write (path : str)
| Transcribe (audio_path : str)
| Classify (text : str)
| Synthesize_speech (text name : str) (speaking_rate : Q) (pitch : Z)
| GTTS (text lang : str)
| Sf_read (file : option str)
| Sd_play.

(** Outcome of every external call one turn of the loop may make:
    - [sd_rec]: [sd.rec] and [sd.wait] in [record_audio];
    - [sf_write]: [sf.write] in [record_audio];
    - [transcribe]: [stt_model.transcribe(audio_path)["text"]];
    - [sentiment_analyzer]: label and score of the first result;
    - [synthesize_speech]: the [try] body of [text_to_speech], from the
      request to Google to the write of [response.mp3];
    - [gtts_save]: the fallback [try] body, from the import of gTTS to
      [tts.save];
    - [sf_read]: [sf.read] of a path;
    - [sd_play]: [sd.play] and [sd.wait] after it;
    - [datetime_now]: the clock read by [save_feedback].
    An outcome [Raise KeyboardInterrupt] is Ctrl-C pressed during the call. *)
Record Env := mkEnv {
  sd_rec : res unit;
  sf_write : res unit;
  transcribe : res str;
  sentiment_analyzer : res (str * Q);
  synthesize_speech : res unit;
  gtts_save : res unit;
  sf_read : res unit;
  sd_play : res unit;
  datetime_now : N
}.

(** ** A monad for state, exceptions and output *)

Definition M (A : Type) : Type := World -> res A * World * list action.

Definition ret {A} (a : A) : M A := fun w => (Ok a, w, []).

Definition bind {A B} (m : M A) (k : A -> M B) : M B :=
  fun w =>
    match m w with
    | (Ok a, w1, o1) =>
        match k a w1 with
        | (r, w2, o2) => (r, w2, o1 ++ o2)
        end
    | (Raise e, w1, o1) => (Raise e, w1, o1)
    end.

Notation "x <- m ;; k" := (bind m (fun x => k))
  (at level 61, m at next level, right associativity).
Notation "m ;; k" := (bind m (fun _ => k))
  (at level 61, right associativity).

(** [try: body  except Exception as e: handler] *)
Definition try_except_Exception {A} (body : M A) (handler : exn -> M A) : M A :=
  fun w =>
    match body w with
    | (Ok a, w1, o1) => (Ok a, w1, o1)
    | (Raise e, w1, o1) =>
        if is_Exception e then
          match handler e w1 with
          | (r, w2, o2) => (r, w2, o1 ++ o2)
          end
        else (Raise e, w1, o1)
    end.

Definition print (m : message) : M unit := fun w => (Ok tt, w, [Stdout m]).

(** An external call with a scripted outcome. *)
Definition call {A} (a : action) (outcome : res A) : M A :=
  fun w => (outcome, w, [a]).

Definition get_bot : M MKAI := fun w => (Ok (bot w), w, []).

Definition modify (f : World -> World) : M unit := fun w => (Ok tt, f w, []).

(** [input(prompt)] *)
Definition input (p : prompt) : M str :=
  fun w =>
    match console w with
    | [] => (Raise EOFError, w, [Input p])
    | Line text :: rest => (Ok text, set_console rest w, [Input p])
    | CtrlC :: rest => (Raise KeyboardInterrupt, set_console rest w, [Input p])
    end.

Definition state_of {A} (x : res A * World * list action) : World := snd (fst x).
Definition result_of {A} (x : res A * World * list action) : res A := fst (fst x).
Definition actions_of {A} (x : res A * World * list action) : list action := snd x.

(** Truth value of an attribute that holds an object or [None]. *)
Definition not_None {A} (o : option A) : bool :=
  match o with Some _ => true | None => false end.

(** ** The methods of [MKAI] *)

(** [MKAI.__init__]: the part that sets up speech synthesis.  [cred_exists]
    is [os.path.exists(cred_path)], [client] the outcome of constructing
    [TextToSpeechClient].  This is the only place where [use_google_tts] is
    assigned [True]. *)
Definition init (cred_exists : bool) (client : res unit) : res MKAI :=
  if cred_exists then
    match client with
    | Ok c => Ok (mkMKAI (Some c) true [] [])
    | Raise e =>
        if is_Exception e then Ok (mkMKAI None false [] []) else Raise e
    end
  else Ok (mkMKAI None false [] []).

(** [MKAI.speech_to_text] *)
Definition speech_to_text (env : Env) (audio_path : str) : M (str * str) :=
  text <- call (Transcribe audio_path) (transcribe env) ;;
  let dialect := detect_dialect text in
  print (Msg_detected_dialect dialect) ;;
  ret (dediac_ar text, dialect).

(** [MKAI.analyze_emotion] *)
Definition analyze_emotion (env : Env) (text : str) : M (str * Q) :=
  call (Classify text) (sentiment_analyzer env).

(** The parameters built for the Google voice (lines 85-95). *)
Definition voice_name (emotion : str) : str :=
  if str_eqb emotion (u "positive") then u "ar-XA-Standard-B"
  else u "ar-XA-Standard-D".

Definition speaking_rate_of (emotion : str) : Q :=
  if str_eqb emotion (u "happy") then 12 # 10 else 1 # 1.

Definition pitch_of (emotion : str) : Z :=
  if str_eqb emotion (u "excited") then 2%Z else 0%Z.

Definition response_mp3 : str := Eval vm_compute in u "response.mp3".

(** The fallback block of [text_to_speech] (lines 110-118). *)
Definition fallback_tts (env : Env) (text : str) : M (option str) :=
  try_except_Exception
    (call (GTTS text (u "ar")) (gtts_save env) ;;
     ret (Some response_mp3))
    (fun _ => print Msg_fallback_failed ;; ret None).

(** [MKAI.text_to_speech].  The first block yields [Some path] when it
    returns from inside the [try], and [None] when control falls through
    to the fallback block. *)
Definition text_to_speech (env : Env) (text emotion : str) : M (option str) :=
  self <- get_bot ;;
  returned <-
    (if use_google_tts self && not_None (tts_client self) then
       try_except_Exception
         (call (Synthesize_speech text (voice_name emotion)
                  (speaking_rate_of emotion) (pitch_of emotion))
               (synthesize_speech env) ;;
          ret (Some response_mp3))
         (fun _ =>
            print Msg_google_failed ;;
            modify (set_use_google_tts false) ;;
            ret None)
     else ret None) ;;
  match returned with
  | Some path => ret (Some path)
  | None => fallback_tts env text
  end.

(** The [responses] dict of [generate_response]. *)
Definition responses : list (str * list str) := Eval vm_compute in
  [ (u "positive",
      [u "أمر رائع! هل تريد المزيد من المساعدة؟";
       u "هذا ممتع! ماذا تريد أن تفعل بعد ذلك؟"]);
    (u "negative",
      [u "أنا آسف لسماع ذلك. هل تريد التحدث أكثر؟";
       u "يبدو أن هذا صعب. كيف يمكنني المساعدة؟"]);
    (u "neutral",
      [u "فهمت. ماذا تريد أن تفعل الآن؟";
       u "حسنًا، ما الخطوة التالية؟"]) ].

(** [d[key]] on a dict given by its items. *)
Fixpoint dict_get {V} (d : list (str * V)) (key : str) : res V :=
  match d with
  | [] => Raise (KeyError key)
  | (k, v) :: rest => if str_eqb k key then Ok v else dict_get rest key
  end.

(** [l[0]] *)
Definition first {V} (l : list V) : res V :=
  match l with
  | [] => Raise IndexError
  | x :: _ => Ok x
  end.

(** [MKAI.generate_response]: [responses[emotion][0]]. *)
Definition generate_response (text emotion : str) : res str :=
  match dict_get responses emotion with
  | Ok candidates => first candidates
  | Raise e => Raise e
  end.

(** [MKAI.save_feedback] *)
Definition save_feedback (env : Env) (user_input bot_response correction : str)
  : M unit :=
  modify (append_feedback
            (mkFeedback (datetime_now env) user_input bot_response correction)).

Definition input_wav : str := Eval vm_compute in u "input.wav".

(** [MKAI.record_audio] *)
Definition record_audio (env : Env) : M (option str) :=
  try_except_Exception
    (print Msg_recording ;;
     call Sd_rec (sd_rec env) ;;
     print Msg_recording_complete ;;
     let audio_path := input_wav in
     call (Sf_write audio_path) (sf_write env) ;;
     ret (Some audio_path))
    (fun _ =>
       print Msg_error_recording ;;
       print Msg_ensure_microphone ;;
       ret None).

Definition exit_word : str := Eval vm_compute in u "exit".

(** The [while True] loop of [get_text_input], by recursion on what is left
    of the console: each round reads one entry. *)
Fixpoint get_text_input_from (entries : list console_event)
  : res (option str * option str) * list console_event * list action :=
  match entries with
  | [] => (Raise EOFError, [], [Input Prompt_enter_text])
  | CtrlC :: rest => (Ok (None, None), rest, [Input Prompt_enter_text])
  | Line text :: rest =>
      if str_eqb (str_lower text) exit_word then
        (Ok (None, None), rest, [Input Prompt_enter_text])
      else if truthy (strip text) then
        (Ok (Some text, Some msa), rest, [Input Prompt_enter_text])
      else
        match get_text_input_from rest with
        | (r, rest', o) =>
            (r, rest', Input Prompt_enter_text :: Stdout Msg_enter_some_text :: o)
        end
  end.

(** [MKAI.get_text_input] *)
Definition get_text_input : M (option str * option str) :=
  fun w =>
    match get_text_input_from (console w) with
    | (r, rest, o) => (r, set_console rest w, o)
    end.

(** ** The script's loop *)

(** [sf.read(file)]: soundfile accepts a path, a file descriptor or a
    file-like object, and raises [TypeError] for anything else, [None]
    included. *)
Definition sf_read_file (env : Env) (file : option str) : M unit :=
  match file with
  | Some path => call (Sf_read (Some path)) (sf_read env)
  | None => call (Sf_read None) (Raise TypeError)
  end.

Definition yes_word : str := Eval vm_compute in u "y".

(** Lines 188-198 of one iteration: audio first, text entry when no audio
    was recorded.  [None] stands for [break]. *)
Definition turn_acquire (env : Env) : M (option str) :=
  audio_path <- record_audio env ;;
  match audio_path with
  | Some path =>
      td <- speech_to_text env path ;;
      print (Msg_user_voice (fst td) (snd td)) ;;
      ret (Some (fst td))
  | None =>
      td <- get_text_input ;;
      match fst td with
      | None => ret None
      | Some text =>
          print (Msg_user_text text (snd td)) ;;
          ret (Some text)
      end
  end.

(** Lines 200-214 of one iteration: emotion, response, synthesis and
    playback.  Returns the response. *)
Definition turn_respond (env : Env) (text : str) : M str :=
  ec <- analyze_emotion env text ;;
  let emotion := fst ec in
  print (Msg_detected_emotion emotion (snd ec)) ;;
  response <- (fun w => (generate_response text emotion, w, [])) ;;
  print (Msg_bot response) ;;
  response_audio <- text_to_speech env response emotion ;;
  sf_read_file env response_audio ;;
  call Sd_play (sd_play env) ;;
  ret response.

(** Lines 216-220 of one iteration: the feedback prompt. *)
Definition turn_feedback (env : Env) (text response : str) : M unit :=
  entry <- input Prompt_was_good ;;
  let feedback := str_lower entry in
  if negb (str_eqb feedback yes_word) then
    correction <- input Prompt_correct_response ;;
    save_feedback env text response correction
  else ret tt.

Inductive flow := Continue | Break.

(** One iteration of the [while True] loop of the script. *)
Definition loop_body (env : Env) : M flow :=
  acquired <- turn_acquire env ;;
  match acquired with
  | None => ret Break
  | Some text =>
      response <- turn_respond env text ;;
      turn_feedback env text response ;;
      ret Continue
  end.

(** How a run ends: still looping when the script of turns is used up,
    left by [break], stopped by [KeyboardInterrupt] (caught at line 222), or
    ended by an exception nothing catches. *)
Inductive status :=
| Running
| Exited
| Interrupted
| Crashed (e : exn).

Fixpoint while_true (script : list Env) : M status :=
  match script with
  | [] => ret Running
  | env :: rest =>
      f <- loop_body env ;;
      match f with
      | Break => ret Exited
      | Continue => while_true rest
      end
  end.

(** The script from line 185 on, started with the object [MKAI()] built. *)
Definition main (script : list Env) (w : World)
  : status * World * list action :=
  match while_true script w with
  | (Ok s, w', o) => (s, w', o)
  | (Raise KeyboardInterrupt, w', o) =>
      (Interrupted, w',
       o ++ [Stdout Msg_training;
             Stdout (Msg_saved (List.length (feedback_db (bot w'))))])
  | (Raise e, w', o) => (Crashed e, w', o)
  end.

(** Any use of the object after construction that can touch its state: a
    method call or a whole iteration of the loop.  [detect_dialect] and
    [generate_response] only compute a value. *)
Inductive op :=
| Op_record_audio (env : Env)
| Op_speech_to_text (env : Env) (audio_path : str)
| Op_analyze_emotion (env : Env) (text : str)
| Op_text_to_speech (env : Env) (text emotion : str)
| Op_save_feedback (env : Env) (user_input bot_response correction : str)
| Op_get_text_input
| Op_loop_body (env : Env).

Definition run_op (o : op) (w : World) : World :=
  match o with
  | Op_record_audio env => state_of (record_audio env w)
  | Op_speech_to_text env p => state_of (speech_to_text env p w)
  | Op_analyze_emotion env t => state_of (analyze_emotion env t w)
  | Op_text_to_speech env t e => state_of (text_to_speech env t e w)
  | Op_save_feedback env i r c => state_of (save_feedback env i r c w)
  | Op_get_text_input => state_of (get_text_input w)
  | Op_loop_body env => state_of (loop_body env w)
  end.

Definition run_ops (ops : list op) (w : World) : World :=
  fold_left (fun w o => run_op o w) ops w.

(** Whether a list of actions calls the Google backend. *)
Definition is_google_call (a : action) : bool :=
  match a with
  | Synthesize_speech _ _ _ _ => true
  | _ => false
  end.

Definition calls_google (o : list action) : bool := existsb is_google_call o.

(** The keywords listed for a dialect, and a text matching one of them. *)
Definition keywords_of (dialect : str) : list str :=
  match dict_get dialect_map dialect with
  | Ok keywords => keywords
  | Raise _ => []
  end.

Definition matches (dialect text : str) : Prop :=
  exists keyword, In keyword (keywords_of dialect) /\ occurs keyword text.

(** No keyword of any listed dialect occurs in the text. *)
Definition no_keyword_in (items : list (str * list str)) (text : str) : Prop :=
  forall dialect keywords keyword,
    In (dialect, keywords) items -> In keyword keywords ->
    ~ occurs keyword text.

(** Audio was recorded: both [sd.rec]/[sd.wait] and [sf.write] returned. *)
Definition capture_ok (env : Env) : Prop :=
  sd_rec env = Ok tt /\ sf_write env = Ok tt.

(** [m] leaves every state in relation [R] with the state it started in. *)
Definition preserves {A} (R : World -> World -> Prop) (m : M A) : Prop :=
  forall w, R w (state_of (m w)).

(** [feedback_db] only grows at its end. *)
Definition db_extends (w w' : World) : Prop :=
  exists added, feedback_db (bot w') = feedback_db (bot w) ++ added.

Definition db_same (w w' : World) : Prop :=
  feedback_db (bot w') = feedback_db (bot w).

(** [use_google_tts] is not switched on. *)
Definition flag_not_raised (w w' : World) : Prop :=
  use_google_tts (bot w') = true -> use_google_tts (bot w) = true.

(** Started with the flag cleared, [m] leaves it cleared and makes no call
    to the Google backend. *)
Definition skips_google {A} (m : M A) : Prop :=
  forall w, use_google_tts (bot w) = false ->
            use_google_tts (bot (state_of (m w))) = false /\
            calls_google (actions_of (m w)) = false.

(** ** Sample scripts, used to run the model on concrete inputs *)

(** A turn in which every external call succeeds. *)
Definition env_ok (transcript label : str) : Env :=
  mkEnv (Ok tt) (Ok tt) (Ok transcript) (Ok (label, 9 # 10))
        (Ok tt) (Ok tt) (Ok tt) (Ok tt) 0%N.

(** The object after a construction that found the credentials, and after
    one that did not. *)
Definition bot_google : MKAI := mkMKAI (Some tt) true [] [].
Definition bot_fallback : MKAI := mkMKAI None false [] [].

(** A turn in which the Google backend raises and everything else works. *)
Definition env_google_down (transcript label : str) : Env :=
  mkEnv (Ok tt) (Ok tt) (Ok transcript) (Ok (label, 9 # 10))
        (Raise OtherError) (Ok tt) (Ok tt) (Ok tt) 0%N.

(** A turn in which both synthesis backends raise. *)
Definition env_tts_down (transcript label : str) : Env :=
  mkEnv (Ok tt) (Ok tt) (Ok transcript) (Ok (label, 9 # 10))
        (Raise OtherError) (Raise OtherError) (Ok tt) (Ok tt) 0%N.

(** A turn in which the microphone cannot be opened. *)
Definition env_no_mic (label : str) : Env :=
  mkEnv (Raise OtherError) (Ok tt) (Ok []) (Ok (label, 9 # 10))
        (Ok tt) (Ok tt) (Ok tt) (Ok tt) 0%N.

(** The word "mish" written with a kasra under its first letter. *)
Definition mish_with_kasra : str := Eval vm_compute in u "مِش".

(** ** Notions used to state further properties *)

(** The replies [generate_response] can return: the first candidate of
    every entry of [responses]. *)
Definition first_candidates : list str :=
  flat_map (fun item => match snd item with
                        | reply :: _ => [reply]
                        | [] => []
                        end) responses.

(** The candidates [responses] lists after the first of each entry. *)
Definition later_candidates : list str :=
  flat_map (fun item => tl (snd item)) responses.

(** An entry made of whitespace only (the empty entry included). *)
Definition is_blank_line (ev : console_event) : bool :=
  match ev with
  | Line text => forallb isspace text
  | CtrlC => false
  end.

(** How the script ends on an exception that leaves the loop: line 222
    catches [KeyboardInterrupt], nothing catches the rest. *)
Definition status_of_exn (e : exn) : status :=
  match e with
  | KeyboardInterrupt => Interrupted
  | _ => Crashed e
  end.

(** [m] always ends with a result in [Q] and emits only actions in [P]. *)
Definition yields {A} (m : M A) (Q : res A -> Prop) (P : action -> Prop)
  : Prop :=
  forall w, Q (result_of (m w)) /\ Forall P (actions_of (m w)).

(** What one turn, run with the outcomes [env], may do to the synthesis
    attributes: the client stays, and the flag stays unless the Google call
    of the turn raised with a client present. *)
Definition flag_step (env : Env) (w w' : World) : Prop :=
  tts_client (bot w') = tts_client (bot w)
  /\ (use_google_tts (bot w') = use_google_tts (bot w)
      \/ (tts_client (bot w) <> None /\ use_google_tts (bot w) = true /\
          use_google_tts (bot w') = false /\
          exists e, synthesize_speech env = Raise e /\ is_Exception e = true)).

(** The fields no method assigns after construction. *)
Definition fixed_attributes (w w' : World) : Prop :=
  tts_client (bot w') = tts_client (bot w)
  /\ emotion_log (bot w') = emotion_log (bot w).

(** The notices printed while [get_text_input] skips [n] blank entries. *)
Fixpoint blank_notices (n : nat) : list action :=
  match n with
  | O => []
  | S n' => Input Prompt_enter_text :: Stdout Msg_enter_some_text
              :: blank_notices n'
  end.

(** What a turn may do to the outside world: it writes and transcribes
    ["input.wav"] only, reads ["response.mp3"] (or the [None] of a failed
    synthesis) only, speaks only first candidates of [responses], in Arabic,
    with one of the two voices, and never prints the shutdown report.  The
    feedback prompts are allowed only when [feedback_allowed] is set. *)
Definition turn_action_ok (feedback_allowed : bool) (a : action) : Prop :=
  match a with
  | Stdout Msg_training => False
  | Stdout (Msg_saved _) => False
  | Input Prompt_enter_text => True
  | Input _ => feedback_allowed = true
  | Sf_write path => path = input_wav
  | Transcribe audio_path => audio_path = input_wav
  | Sf_read file => file = Some response_mp3 \/ file = None
  | GTTS text lang => In text first_candidates /\ lang = u "ar"
  | Synthesize_speech text name _ _ =>
      In text first_candidates /\
      (name = u "ar-XA-Standard-B" \/ name = u "ar-XA-Standard-D")
  | _ => True
  end.

(** * Properties *)

(** ** The model on the spec's scenarios *)

Example utf8_decode_mish : u "مش" = [1605; 1588]%N.
Proof. reflexivity. Qed.

Example detect_dialect_egyptian :
  detect_dialect (u "مش عارف اعمل ايه") = u "egyptian".
Proof. reflexivity. Qed.

Example detect_dialect_english : detect_dialect (u "hello there") = msa.
Proof. reflexivity. Qed.

Example strip_blank : strip (u "  ") = [] /\ strip (u " a b ") = u "a b".
Proof. split; reflexivity. Qed.

Example dediac_mish : dediac_ar mish_with_kasra = u "مش".
Proof. reflexivity. Qed.

(** A spoken turn rated "n" and corrected: one record, loop still running. *)
Example main_spoken_turn :
  main [env_ok (u "مش عارف") (u "negative")]
       (mkWorld bot_fallback [Line (u "n"); Line (u "أهلا")])
  = (Running,
     mkWorld (mkMKAI None false
                [mkFeedback 0 (u "مش عارف")
                   (u "أنا آسف لسماع ذلك. هل تريد التحدث أكثر؟") (u "أهلا")]
                [])
             [],
     [Stdout Msg_recording; Sd_rec; Stdout Msg_recording_complete;
      Sf_write input_wav; Transcribe input_wav;
      Stdout (Msg_detected_dialect (u "egyptian"));
      Stdout (Msg_user_voice (u "مش عارف") (u "egyptian"));
      Classify (u "مش عارف");
      Stdout (Msg_detected_emotion (u "negative") (9 # 10));
      Stdout (Msg_bot (u "أنا آسف لسماع ذلك. هل تريد التحدث أكثر؟"));
      GTTS (u "أنا آسف لسماع ذلك. هل تريد التحدث أكثر؟") (u "ar");
      Sf_read (Some response_mp3); Sd_play;
      Input Prompt_was_good; Input Prompt_correct_response]).
Proof. reflexivity. Qed.

(** No microphone, then "exit" typed: the loop is left by [break]. *)
Example main_typed_exit :
  fst (fst (main [env_no_mic (u "neutral")]
                 (mkWorld bot_fallback [Line (u "Exit")])))
  = Exited.
Proof. reflexivity. Qed.

(** Ctrl-C at the feedback prompt stops a spoken turn. *)
Example main_interrupted :
  fst (fst (main [env_ok (u "مرحبا") (u "neutral")]
                 (mkWorld bot_fallback [CtrlC])))
  = Interrupted.
Proof. reflexivity. Qed.

(** A label outside the table ends the run with [KeyError]. *)
Example main_unknown_label :
  fst (fst (main [env_ok (u "مرحبا") (u "happy")]
                 (mkWorld bot_fallback [Line (u "y")])))
  = Crashed (KeyError (u "happy")).
Proof. reflexivity. Qed.

(** Construction leaves the flag set only together with a client. *)
Lemma init_flag_has_client (cred_exists : bool) (client : res unit) (b : MKAI) :
  init cred_exists client = Ok b ->
  use_google_tts b = true -> tts_client b <> None.
Proof.
  unfold init. destruct cred_exists; [|intros H; inversion H; discriminate].
  destruct client as [c|e].
  - intros H _. inversion H. discriminate.
  - destruct (is_Exception e); intros H; inversion H; discriminate.
Qed.

(** ** Strings *)

Lemma str_eqb_eq (a b : str) : str_eqb a b = true <-> a = b.
Proof.
  revert b; induction a as [|x a IH]; intros [|y b]; simpl;
    try (split; [discriminate | discriminate]); [tauto|].
  rewrite andb_true_iff, N.eqb_eq, IH.
  split; [intros [-> ->]; reflexivity | intros H; inversion H; auto].
Qed.

Lemma str_eqb_refl (a : str) : str_eqb a a = true.
Proof. apply str_eqb_eq; reflexivity. Qed.

Lemma str_eqb_neq (a b : str) : str_eqb a b = false <-> a <> b.
Proof.
  rewrite <- str_eqb_eq. destruct (str_eqb a b); split; congruence.
Qed.

Lemma startswith_prefix (p t : str) :
  startswith p t = true <-> exists b, t = p ++ b.
Proof.
  revert t; induction p as [|x p IH]; intros t; simpl.
  - split; [intros _; exists t; reflexivity | reflexivity].
  - destruct t as [|y t].
    + split; [discriminate | intros [b Hb]; discriminate].
    + rewrite andb_true_iff, N.eqb_eq, IH. split.
      * intros [-> [b ->]]. exists b; reflexivity.
      * intros [b Hb]. inversion Hb; subst. split; [reflexivity | exists b; reflexivity].
Qed.

Lemma str_contains_occurs (k t : str) :
  str_contains k t = true <-> occurs k t.
Proof.
  unfold occurs. induction t as [|c t IH]; simpl.
  - rewrite orb_false_r, startswith_prefix. split.
    + intros [b Hb]. exists [], b. exact Hb.
    + intros [a [b Hab]]. destruct a; [exists b; exact Hab | discriminate].
  - rewrite orb_true_iff, startswith_prefix, IH. split.
    + intros [[b Hb] | [a [b Hab]]].
      * exists [], b. exact Hb.
      * exists (c :: a), b. simpl. rewrite Hab. reflexivity.
    + intros [[|x a] [b Hab]].
      * left. exists b. exact Hab.
      * right. simpl in Hab. inversion Hab; subst. exists a, b. reflexivity.
Qed.

Lemma any_keyword_in_occurs (keywords : list str) (text : str) :
  any_keyword_in keywords text = true <->
  exists keyword, In keyword keywords /\ occurs keyword text.
Proof.
  unfold any_keyword_in. rewrite existsb_exists.
  split; intros [k [Hin Hk]]; exists k; split; auto;
    apply str_contains_occurs; exact Hk.
Qed.

Lemma any_keyword_in_none (keywords : list str) (text : str) :
  any_keyword_in keywords text = false <->
  forall keyword, In keyword keywords -> ~ occurs keyword text.
Proof.
  split.
  - intros H k Hin Hocc.
    assert (any_keyword_in keywords text = true)
      by (apply any_keyword_in_occurs; exists k; auto).
    congruence.
  - intros H. destruct (any_keyword_in keywords text) eqn:E; [|reflexivity].
    apply any_keyword_in_occurs in E. destruct E as [k [Hin Hocc]].
    exfalso. exact (H k Hin Hocc).
Qed.

(** A checkable form of [no_keyword_in]. *)
Lemma no_keyword_in_forallb (items : list (str * list str)) (text : str) :
  forallb (fun item => negb (any_keyword_in (snd item) text)) items = true ->
  no_keyword_in items text.
Proof.
  rewrite forallb_forall. intros H d kws k Hin Hk.
  specialize (H _ Hin). simpl in H. apply negb_true_iff in H.
  rewrite any_keyword_in_none in H. exact (H k Hk).
Qed.

(** ** Dialect detection *)

(** The loop returns the dialect of the first item with a matching keyword,
    and ['msa'] when no item has one. *)
Lemma detect_dialect_in_first (items : list (str * list str)) (text : str) :
  (exists pre dialect keywords post,
      items = pre ++ (dialect, keywords) :: post /\
      no_keyword_in pre text /\
      (exists keyword, In keyword keywords /\ occurs keyword text) /\
      detect_dialect_in items text = dialect)
  \/ (no_keyword_in items text /\ detect_dialect_in items text = msa).
Proof.
  induction items as [|[d kws] items IH]; simpl.
  - right. split; [intros ? ? ? [] | reflexivity].
  - destruct (any_keyword_in kws text) eqn:E.
    + left. exists [], d, kws, items. repeat split.
      * intros ? ? ? [].
      * apply any_keyword_in_occurs. exact E.
    + destruct IH as [(pre & d' & kws' & post & Heq & Hpre & Hkw & Hres) | [Hno Hres]].
      * left. exists ((d, kws) :: pre), d', kws', post. repeat split; auto.
        -- simpl. rewrite Heq. reflexivity.
        -- intros d0 kws0 k [Hin | Hin] Hk.
           ++ inversion Hin; subst.
              rewrite any_keyword_in_none in E. exact (E k Hk).
           ++ exact (Hpre d0 kws0 k Hin Hk).
      * right. split; [|exact Hres].
        intros d0 kws0 k [Hin | Hin] Hk.
        -- inversion Hin; subst.
           rewrite any_keyword_in_none in E. exact (E k Hk).
        -- exact (Hno d0 kws0 k Hin Hk).
Qed.

(** C4: [detect_dialect] is a function of the text alone; when some keyword
    of the lexicon occurs in the text it returns the first dialect, in the
    order of [dialect_map], one of whose keywords occurs in the text; when no
    keyword occurs (the empty text included) it returns ['msa']. *)
Theorem detect_dialect_first_match (text : str) :
  ((exists dialect keywords keyword,
       In (dialect, keywords) dialect_map /\ In keyword keywords /\
       occurs keyword text) ->
   exists pre dialect keywords post,
     dialect_map = pre ++ (dialect, keywords) :: post /\
     no_keyword_in pre text /\
     (exists keyword, In keyword keywords /\ occurs keyword text) /\
     detect_dialect text = dialect)
  /\ (no_keyword_in dialect_map text -> detect_dialect text = msa)
  /\ detect_dialect [] = msa.
Proof.
  unfold detect_dialect.
  destruct (detect_dialect_in_first dialect_map text)
    as [(pre & d & kws & post & Heq & Hpre & Hkw & Hres) | [Hno Hres]].
  - split; [|split].
    + intros _. exists pre, d, kws, post. auto.
    + intros Hno. exfalso. destruct Hkw as [k [Hin Hk]].
      apply (Hno d kws k); auto.
      rewrite Heq. apply in_or_app. right. left. reflexivity.
    + reflexivity.
  - split; [|split].
    + intros (d & kws & k & Hin & Hk & Hocc). exfalso.
      exact (Hno d kws k Hin Hk Hocc).
    + intros _. exact Hres.
    + reflexivity.
Qed.

Lemma detect_dialect_first_match_witness :
  (exists pre dialect keywords post,
     dialect_map = pre ++ (dialect, keywords) :: post /\
     no_keyword_in pre (u "مش عارف اعمل ايه") /\
     (exists keyword, In keyword keywords /\
                      occurs keyword (u "مش عارف اعمل ايه")) /\
     detect_dialect (u "مش عارف اعمل ايه") = dialect)
  /\ detect_dialect (u "hello there") = msa.
Proof.
  split.
  - apply (proj1 (detect_dialect_first_match (u "مش عارف اعمل ايه"))).
    exists (u "egyptian"), [u "مش"; u "هعمل"; u "عاوز"], (u "مش").
    split; [left; reflexivity|].
    split; [left; reflexivity|].
    exists [], (u " عارف اعمل ايه"). reflexivity.
  - apply (proj1 (proj2 (detect_dialect_first_match (u "hello there")))).
    apply no_keyword_in_forallb. reflexivity.
Defined.

Lemma detect_dialect_cases (text : str) :
  detect_dialect text =
    if any_keyword_in (keywords_of (u "egyptian")) text then u "egyptian"
    else if any_keyword_in (keywords_of (u "gulf")) text then u "gulf"
    else if any_keyword_in (keywords_of (u "levantine")) text then u "levantine"
    else msa.
Proof. reflexivity. Qed.

Lemma matches_any (dialect text : str) :
  matches dialect text <-> any_keyword_in (keywords_of dialect) text = true.
Proof. unfold matches. symmetry. apply any_keyword_in_occurs. Qed.

Lemma not_matches_any (dialect text : str) :
  ~ matches dialect text <-> any_keyword_in (keywords_of dialect) text = false.
Proof.
  rewrite matches_any. destruct (any_keyword_in _ _); split; congruence.
Qed.

(** C9: the lexicon lists egyptian, then gulf, then levantine, and a text
    that matches several dialects gets the earliest of them: egyptian
    whenever an egyptian keyword occurs, gulf when no egyptian keyword but a
    gulf keyword occurs, levantine only when neither occurs.  The result is a
    function of the text, so it is the same on every run. *)
Theorem detect_dialect_tie_break (text : str) :
  map fst dialect_map = [u "egyptian"; u "gulf"; u "levantine"]
  /\ (matches (u "egyptian") text -> detect_dialect text = u "egyptian")
  /\ (~ matches (u "egyptian") text -> matches (u "gulf") text ->
      detect_dialect text = u "gulf")
  /\ (~ matches (u "egyptian") text -> ~ matches (u "gulf") text ->
      matches (u "levantine") text -> detect_dialect text = u "levantine").
Proof.
  rewrite detect_dialect_cases.
  split; [reflexivity|].
  repeat split.
  - intros H. apply matches_any in H. rewrite H. reflexivity.
  - intros He Hg. apply not_matches_any in He. apply matches_any in Hg.
    rewrite He, Hg. reflexivity.
  - intros He Hg Hl. apply not_matches_any in He. apply not_matches_any in Hg.
    apply matches_any in Hl. rewrite He, Hg, Hl. reflexivity.
Qed.

(** A text with the egyptian keyword "مش" and the gulf keyword "وينك" is
    egyptian; so is any text with the levantine keyword "مشان الله", which
    contains "مش". *)
Lemma detect_dialect_tie_break_witness :
  detect_dialect (u "وينك مش هنا") = u "egyptian"
  /\ detect_dialect (u "مشان الله") = u "egyptian"
  /\ detect_dialect (u "وينك يما") = u "gulf"
  /\ detect_dialect (u "يما") = u "levantine".
Proof.
  split; [|split; [|split]].
  - apply (proj1 (proj2 (detect_dialect_tie_break (u "وينك مش هنا")))).
    apply matches_any. reflexivity.
  - apply (proj1 (proj2 (detect_dialect_tie_break (u "مشان الله")))).
    apply matches_any. reflexivity.
  - apply (proj1 (proj2 (proj2 (detect_dialect_tie_break (u "وينك يما"))))).
    + apply not_matches_any. reflexivity.
    + apply matches_any. reflexivity.
  - apply (proj2 (proj2 (proj2 (detect_dialect_tie_break (u "يما"))))).
    + apply not_matches_any. reflexivity.
    + apply not_matches_any. reflexivity.
    + apply matches_any. reflexivity.
Defined.

(** ** Response selection *)

Lemma dict_get_missing {V} (d : list (str * V)) (key : str) :
  ~ In key (map fst d) -> dict_get d key = Raise (KeyError key).
Proof.
  induction d as [|[k v] d IH]; simpl; intros H; [reflexivity|].
  destruct (str_eqb k key) eqn:E.
  - apply str_eqb_eq in E. exfalso. apply H. left. exact E.
  - apply IH. intros Hin. apply H. right. exact Hin.
Qed.

(** C3: the keys of [responses] are positive, negative and neutral; for
    each key [generate_response] returns the first candidate listed under it
    (for "positive" the reply "أمر رائع! هل تريد المزيد من المساعدة؟"); for an
    emotion that is not a key it raises [KeyError] (the spec's
    UnknownEmotionCategory) and returns nothing. *)
Theorem generate_response_first_candidate (text emotion : str) :
  map fst responses = [u "positive"; u "negative"; u "neutral"]
  /\ (forall candidates, In (emotion, candidates) responses ->
      exists reply rest,
        candidates = reply :: rest /\
        generate_response text emotion = Ok reply)
  /\ generate_response text (u "positive")
     = Ok (u "أمر رائع! هل تريد المزيد من المساعدة؟")
  /\ (~ In emotion (map fst responses) ->
      generate_response text emotion = Raise (KeyError emotion)).
Proof.
  split; [reflexivity|]. split; [|split; [reflexivity|]].
  - intros candidates Hin. simpl in Hin.
    destruct Hin as [H | [H | [H | []]]]; inversion H; subst;
      eexists; eexists; split; reflexivity.
  - intros H. unfold generate_response.
    rewrite (dict_get_missing responses emotion H). reflexivity.
Qed.

Lemma generate_response_first_candidate_witness :
  (exists reply rest,
      [u "فهمت. ماذا تريد أن تفعل الآن؟"; u "حسنًا، ما الخطوة التالية؟"]
      = reply :: rest /\
      generate_response (u "مرحبا") (u "neutral") = Ok reply)
  /\ generate_response (u "مرحبا") (u "happy") = Raise (KeyError (u "happy")).
Proof.
  split.
  - apply (proj1 (proj2 (generate_response_first_candidate
                           (u "مرحبا") (u "neutral")))).
    right. right. left. reflexivity.
  - apply (proj2 (proj2 (proj2 (generate_response_first_candidate
                                  (u "مرحبا") (u "happy"))))).
    simpl. intros [H | [H | [H | []]]]; discriminate H.
Defined.

(** ** Speech path *)

(** C5, as the code has it: [speech_to_text] runs [detect_dialect] on the
    transcript as Whisper returned it, and strips the diacritics only for
    the text it returns; the dialect it returns is that of the raw
    transcript. *)
Theorem speech_to_text_raw_dialect
  (env : Env) (audio_path transcript : str) (w : World) :
  transcribe env = Ok transcript ->
  speech_to_text env audio_path w
  = (Ok (dediac_ar transcript, detect_dialect transcript), w,
     [Transcribe audio_path;
      Stdout (Msg_detected_dialect (detect_dialect transcript))]).
Proof.
  intros H. unfold speech_to_text, bind, call, print, ret. rewrite H.
  reflexivity.
Qed.

Lemma speech_to_text_raw_dialect_witness :
  speech_to_text (env_ok mish_with_kasra (u "neutral")) input_wav
                 (mkWorld bot_google [])
  = (Ok (u "مش", msa), mkWorld bot_google [],
     [Transcribe input_wav; Stdout (Msg_detected_dialect msa)]).
Proof.
  apply (@speech_to_text_raw_dialect
           (env_ok mish_with_kasra (u "neutral")) input_wav mish_with_kasra
           (mkWorld bot_google [])).
  reflexivity.
Defined.

(** C5 as stated fails: for a transcript of "mish" carrying a kasra, the
    stripped text contains the egyptian keyword "مش", yet the dialect
    returned is ['msa'], not that of the stripped text. *)
Lemma speech_to_text_normalized_dialect_counterexample :
  mish_with_kasra = [1605; 1616; 1588]%N
  /\ transcribe (env_ok mish_with_kasra (u "neutral")) = Ok mish_with_kasra
  /\ result_of (speech_to_text (env_ok mish_with_kasra (u "neutral"))
                  input_wav (mkWorld bot_google []))
     = Ok (dediac_ar mish_with_kasra, msa)
  /\ detect_dialect (dediac_ar mish_with_kasra) = u "egyptian"
  /\ msa <> detect_dialect (dediac_ar mish_with_kasra).
Proof.
  repeat split; try reflexivity. vm_compute. discriminate.
Qed.

(** ** Text entry *)

Lemma lstrip_nil (t : str) : lstrip t = [] <-> forallb isspace t = true.
Proof.
  induction t as [|c t IH]; simpl; [tauto|].
  destruct (isspace c); simpl; [exact IH | split; discriminate].
Qed.

Lemma lstrip_head (t : str) (c : N) (t' : str) :
  lstrip t = c :: t' -> isspace c = false.
Proof.
  induction t as [|x t IH]; simpl; [discriminate|].
  destruct (isspace x) eqn:E; [exact IH|].
  intros H. inversion H; subst. exact E.
Qed.

Lemma forallb_rev {A} (f : A -> bool) (l : list A) :
  forallb f (rev l) = forallb f l.
Proof.
  induction l as [|x l IH]; simpl; [reflexivity|].
  rewrite forallb_app, IH. simpl. rewrite andb_true_r. apply andb_comm.
Qed.

(** [text.strip()] is empty exactly when the text is empty or made of
    whitespace only. *)
Lemma strip_falsy (text : str) :
  truthy (strip text) = false <-> forallb isspace text = true.
Proof.
  unfold strip, rstrip. split.
  - intros H. apply lstrip_nil.
    destruct (lstrip text) as [|c t'] eqn:E; [reflexivity|].
    exfalso.
    assert (Hc : isspace c = false) by (eapply lstrip_head; exact E).
    assert (Hall : forallb isspace (rev (c :: t')) = true).
    { apply lstrip_nil.
      destruct (lstrip (rev (c :: t'))) as [|y l] eqn:E2; [reflexivity|].
      exfalso. simpl in H. destruct (rev l); simpl in H; discriminate. }
    rewrite forallb_rev in Hall. simpl in Hall. rewrite Hc in Hall.
    discriminate.
  - intros H. apply lstrip_nil in H. rewrite H. reflexivity.
Qed.

Lemma strip_truthy (text : str) :
  truthy (strip text) = true <-> forallb isspace text = false.
Proof.
  destruct (truthy (strip text)) eqn:E.
  - split; [|reflexivity]. intros _.
    destruct (forallb isspace text) eqn:F; [|reflexivity].
    apply strip_falsy in F. congruence.
  - apply strip_falsy in E. rewrite E. split; discriminate.
Qed.

Lemma lower_char_e_not_space (c : N) :
  lower_char c = 101%N -> isspace c = false.
Proof.
  unfold lower_char. destruct ((65 <=? c) && (c <=? 90))%N eqn:E.
  - intros H. assert (c = 69%N) by lia. subst. reflexivity.
  - intros ->. reflexivity.
Qed.

(** A whitespace-only entry is never the exit word. *)
Lemma blank_not_exit (text : str) :
  forallb isspace text = true -> str_eqb (str_lower text) exit_word = false.
Proof.
  intros H. apply str_eqb_neq. intros E.
  destruct text as [|c t]; [discriminate|].
  simpl in E. inversion E as [[Hc Ht]].
  apply lower_char_e_not_space in Hc.
  simpl in H. rewrite Hc in H. discriminate.
Qed.

(** C6: [get_text_input] returns [(None, None)], the exit value, when the
    entry lower-cased equals "exit" and when the user interrupts the prompt;
    for an empty or whitespace-only entry it prints a notice and prompts
    again with what follows on the console; for any other entry it returns
    the entry as typed, with dialect ['msa']. *)
Theorem get_text_input_contract (w : World) (rest : list console_event) :
  (forall text,
      console w = Line text :: rest -> str_lower text = exit_word ->
      get_text_input w
      = (Ok (None, None), set_console rest w, [Input Prompt_enter_text]))
  /\ (console w = CtrlC :: rest ->
      get_text_input w
      = (Ok (None, None), set_console rest w, [Input Prompt_enter_text]))
  /\ (forall text,
      console w = Line text :: rest -> forallb isspace text = true ->
      get_text_input w
      = (result_of (get_text_input (set_console rest w)),
         state_of (get_text_input (set_console rest w)),
         Input Prompt_enter_text :: Stdout Msg_enter_some_text
           :: actions_of (get_text_input (set_console rest w))))
  /\ (forall text,
      console w = Line text :: rest -> str_lower text <> exit_word ->
      forallb isspace text = false ->
      get_text_input w
      = (Ok (Some text, Some msa), set_console rest w,
         [Input Prompt_enter_text])).
Proof.
  unfold get_text_input. repeat split.
  - intros text Hc Hexit. rewrite Hc. simpl.
    rewrite Hexit, str_eqb_refl. reflexivity.
  - intros Hc. rewrite Hc. reflexivity.
  - intros text Hc Hblank. rewrite Hc. simpl.
    rewrite (blank_not_exit text Hblank).
    apply strip_falsy in Hblank. rewrite Hblank.
    destruct (get_text_input_from rest) as [[r rest'] o]. reflexivity.
  - intros text Hc Hne Hblank. rewrite Hc. simpl.
    apply str_eqb_neq in Hne. rewrite Hne.
    apply strip_truthy in Hblank. rewrite Hblank. reflexivity.
Qed.

Lemma get_text_input_contract_witness :
  get_text_input (mkWorld bot_fallback [Line (u "ExIt"); Line (u "later")])
  = (Ok (None, None), mkWorld bot_fallback [Line (u "later")],
     [Input Prompt_enter_text])
  /\ get_text_input (mkWorld bot_fallback [CtrlC; Line (u "later")])
     = (Ok (None, None), mkWorld bot_fallback [Line (u "later")],
        [Input Prompt_enter_text])
  /\ get_text_input (mkWorld bot_fallback [Line (u "  "); Line (u "later")])
     = (Ok (Some (u "later"), Some msa), mkWorld bot_fallback [],
        [Input Prompt_enter_text; Stdout Msg_enter_some_text;
         Input Prompt_enter_text])
  /\ get_text_input (mkWorld bot_fallback [Line (u " exit "); Line (u "later")])
     = (Ok (Some (u " exit "), Some msa),
        mkWorld bot_fallback [Line (u "later")], [Input Prompt_enter_text]).
Proof.
  split; [|split; [|split]].
  - apply (proj1 (get_text_input_contract
                    (mkWorld bot_fallback [Line (u "ExIt"); Line (u "later")])
                    [Line (u "later")]) (u "ExIt")); reflexivity.
  - apply (proj1 (proj2 (get_text_input_contract
                    (mkWorld bot_fallback [CtrlC; Line (u "later")])
                    [Line (u "later")]))); reflexivity.
  - apply (proj1 (proj2 (proj2 (get_text_input_contract
                    (mkWorld bot_fallback [Line (u "  "); Line (u "later")])
                    [Line (u "later")]))) (u "  ")); reflexivity.
  - apply (proj2 (proj2 (proj2 (get_text_input_contract
                    (mkWorld bot_fallback [Line (u " exit "); Line (u "later")])
                    [Line (u "later")]))) (u " exit ")).
    + reflexivity.
    + vm_compute. discriminate.
    + reflexivity.
Defined.

(** ** Relations kept by every method *)

Section Preservation.

Variable R : World -> World -> Prop.
Hypothesis R_refl : forall w, R w w.
Hypothesis R_trans : forall w1 w2 w3, R w1 w2 -> R w2 w3 -> R w1 w3.
Hypothesis R_console : forall c w, R w (set_console c w).
Hypothesis R_flag : forall w, R w (set_use_google_tts false w).

Lemma preserves_ret A (a : A) : preserves R (ret a).
Proof. intros w. apply R_refl. Qed.

Lemma preserves_print (m : message) : preserves R (print m).
Proof. intros w. apply R_refl. Qed.

Lemma preserves_call A (a : action) (r : res A) : preserves R (call a r).
Proof. intros w. apply R_refl. Qed.

Lemma preserves_bind A B (m : M A) (k : A -> M B) :
  preserves R m -> (forall a, preserves R (k a)) -> preserves R (bind m k).
Proof.
  intros Hm Hk w. unfold bind. specialize (Hm w).
  destruct (m w) as [[[a|e] w1] o1]; simpl in *; [|exact Hm].
  specialize (Hk a w1).
  destruct (k a w1) as [[r w2] o2]; simpl in *.
  eapply R_trans; eassumption.
Qed.

Lemma preserves_try A (body : M A) (handler : exn -> M A) :
  preserves R body -> (forall e, preserves R (handler e)) ->
  preserves R (try_except_Exception body handler).
Proof.
  intros Hb Hh w. unfold try_except_Exception. specialize (Hb w).
  destruct (body w) as [[[a|e] w1] o1]; simpl in *; [exact Hb|].
  destruct (is_Exception e); simpl; [|exact Hb].
  specialize (Hh e w1).
  destruct (handler e w1) as [[r w2] o2]; simpl in *.
  eapply R_trans; eassumption.
Qed.

Lemma preserves_input (p : prompt) : preserves R (input p).
Proof.
  intros w. unfold input.
  destruct (console w) as [|[text|] rest]; simpl;
    [apply R_refl | apply R_console | apply R_console].
Qed.

Lemma preserves_get_text_input : preserves R get_text_input.
Proof.
  intros w. unfold get_text_input.
  destruct (get_text_input_from (console w)) as [[r rest] o]. simpl.
  apply R_console.
Qed.

Ltac step :=
  first [ apply preserves_ret | apply preserves_print | apply preserves_call
        | apply preserves_input | apply preserves_get_text_input
        | apply preserves_bind; [|intros ?]
        | apply preserves_try; [|intros ?] ].

Lemma preserves_record_audio env : preserves R (record_audio env).
Proof. unfold record_audio. repeat step. Qed.

Lemma preserves_speech_to_text env p : preserves R (speech_to_text env p).
Proof. unfold speech_to_text. repeat step. Qed.

Lemma preserves_analyze_emotion env t : preserves R (analyze_emotion env t).
Proof. unfold analyze_emotion. step. Qed.

Lemma preserves_fallback_tts env t : preserves R (fallback_tts env t).
Proof. unfold fallback_tts. repeat step. Qed.

Lemma preserves_text_to_speech env t e : preserves R (text_to_speech env t e).
Proof.
  unfold text_to_speech.
  apply preserves_bind; [intros w; apply R_refl | intros self].
  apply preserves_bind.
  - destruct (use_google_tts self && not_None (tts_client self));
      [|step].
    apply preserves_try; [repeat step | intros _].
    apply preserves_bind; [step | intros _].
    apply preserves_bind; [intros w; apply R_flag | intros _]. step.
  - intros [path|]; [step | apply preserves_fallback_tts].
Qed.

Lemma preserves_turn_acquire env : preserves R (turn_acquire env).
Proof.
  unfold turn_acquire.
  apply preserves_bind; [apply preserves_record_audio | intros [path|]].
  - apply preserves_bind; [apply preserves_speech_to_text | intros td].
    repeat step.
  - apply preserves_bind; [step | intros [[text|] d]]; simpl; repeat step.
Qed.

Lemma preserves_turn_respond env t : preserves R (turn_respond env t).
Proof.
  unfold turn_respond.
  apply preserves_bind; [apply preserves_analyze_emotion | intros ec].
  apply preserves_bind; [step | intros _].
  apply preserves_bind; [intros w; apply R_refl | intros response].
  apply preserves_bind; [step | intros _].
  apply preserves_bind; [apply preserves_text_to_speech | intros audio].
  apply preserves_bind; [destruct audio; step | intros _].
  repeat step.
Qed.

Hypothesis R_append : forall r w, R w (append_feedback r w).

Lemma preserves_save_feedback env i r c : preserves R (save_feedback env i r c).
Proof. intros w. apply R_append. Qed.

Lemma preserves_turn_feedback env t r : preserves R (turn_feedback env t r).
Proof.
  unfold turn_feedback. apply preserves_bind; [step | intros entry].
  destruct (negb (str_eqb (str_lower entry) yes_word)); [|step].
  apply preserves_bind; [step | intros c]. apply preserves_save_feedback.
Qed.

Lemma preserves_loop_body env : preserves R (loop_body env).
Proof.
  unfold loop_body.
  apply preserves_bind; [apply preserves_turn_acquire | intros [text|]];
    [|step].
  apply preserves_bind; [apply preserves_turn_respond | intros response].
  apply preserves_bind; [apply preserves_turn_feedback | intros _]. step.
Qed.

Lemma preserves_while_true script : preserves R (while_true script).
Proof.
  induction script as [|env rest IH]; simpl; [step|].
  apply preserves_bind; [apply preserves_loop_body | intros [|]];
    [exact IH | step].
Qed.

Lemma run_op_related (o : op) (w : World) : R w (run_op o w).
Proof.
  destruct o; simpl.
  - apply preserves_record_audio.
  - apply preserves_speech_to_text.
  - apply preserves_analyze_emotion.
  - apply preserves_text_to_speech.
  - apply preserves_save_feedback.
  - apply preserves_get_text_input.
  - apply preserves_loop_body.
Qed.

Lemma run_ops_related (ops : list op) (w : World) : R w (run_ops ops w).
Proof.
  unfold run_ops. revert w.
  induction ops as [|o ops IH]; intros w; simpl; [apply R_refl|].
  eapply R_trans; [apply run_op_related | apply IH].
Qed.

End Preservation.

Lemma db_extends_run_ops (ops : list op) (w : World) :
  db_extends w (run_ops ops w).
Proof.
  apply run_ops_related; unfold db_extends; simpl.
  - intros w0. exists []. rewrite app_nil_r. reflexivity.
  - intros w1 w2 w3 [a1 H1] [a2 H2]. exists (a1 ++ a2).
    rewrite H2, H1, app_assoc. reflexivity.
  - intros c w0. exists []. rewrite app_nil_r. reflexivity.
  - intros w0. exists []. rewrite app_nil_r. reflexivity.
  - intros r w0. exists [r]. reflexivity.
Qed.

Lemma db_same_turn_acquire env : preserves db_same (turn_acquire env).
Proof.
  apply preserves_turn_acquire; unfold db_same; simpl; try reflexivity.
  intros w1 w2 w3 H1 H2. congruence.
Qed.

Lemma db_same_turn_respond env t : preserves db_same (turn_respond env t).
Proof.
  apply preserves_turn_respond; unfold db_same; simpl; try reflexivity.
  intros w1 w2 w3 H1 H2. congruence.
Qed.

Lemma flag_not_raised_run_ops (ops : list op) (w : World) :
  flag_not_raised w (run_ops ops w).
Proof.
  apply run_ops_related; unfold flag_not_raised; simpl; auto.
  intros w0 H. discriminate H.
Qed.

Lemma flag_not_raised_while_true script : preserves flag_not_raised (while_true script).
Proof.
  apply preserves_while_true; unfold flag_not_raised; simpl; auto.
  intros w0 H. discriminate H.
Qed.

(** ** Calls to the Google backend *)

Lemma calls_google_app (o1 o2 : list action) :
  calls_google (o1 ++ o2) = calls_google o1 || calls_google o2.
Proof. apply existsb_app. Qed.

Lemma skips_ret A (a : A) : skips_google (ret a).
Proof. intros w H. split; [exact H | reflexivity]. Qed.

Lemma skips_print (m : message) : skips_google (print m).
Proof. intros w H. split; [exact H | reflexivity]. Qed.

Lemma skips_call A (a : action) (r : res A) :
  is_google_call a = false -> skips_google (call a r).
Proof. intros Ha w H. split; [exact H | simpl; rewrite Ha; reflexivity]. Qed.

Lemma skips_bind A B (m : M A) (k : A -> M B) :
  skips_google m -> (forall a, skips_google (k a)) -> skips_google (bind m k).
Proof.
  intros Hm Hk w H. unfold bind. destruct (Hm w H) as [Hf Ho].
  destruct (m w) as [[[a|e] w1] o1]; simpl in *; [|split; assumption].
  destruct (Hk a w1 Hf) as [Hf2 Ho2].
  destruct (k a w1) as [[r w2] o2]; simpl in *.
  split; [exact Hf2|]. rewrite calls_google_app, Ho, Ho2. reflexivity.
Qed.

Lemma skips_try A (body : M A) (handler : exn -> M A) :
  skips_google body -> (forall e, skips_google (handler e)) ->
  skips_google (try_except_Exception body handler).
Proof.
  intros Hb Hh w H. unfold try_except_Exception. destruct (Hb w H) as [Hf Ho].
  destruct (body w) as [[[a|e] w1] o1]; simpl in *; [split; assumption|].
  destruct (is_Exception e); simpl; [|split; assumption].
  destruct (Hh e w1 Hf) as [Hf2 Ho2].
  destruct (handler e w1) as [[r w2] o2]; simpl in *.
  split; [exact Hf2|]. rewrite calls_google_app, Ho, Ho2. reflexivity.
Qed.

Lemma skips_input (p : prompt) : skips_google (input p).
Proof.
  intros w H. unfold input.
  destruct (console w) as [|[text|] rest]; simpl; split; auto.
Qed.

Lemma get_text_input_from_quiet (entries : list console_event) :
  calls_google (snd (get_text_input_from entries)) = false.
Proof.
  induction entries as [|[text|] rest IH]; simpl; try reflexivity.
  destruct (str_eqb (str_lower text) exit_word); [reflexivity|].
  destruct (truthy (strip text)); [reflexivity|].
  destruct (get_text_input_from rest) as [[r rest'] o]. simpl in *. exact IH.
Qed.

Lemma skips_get_text_input : skips_google get_text_input.
Proof.
  intros w H. unfold get_text_input.
  pose proof (get_text_input_from_quiet (console w)) as Hq.
  destruct (get_text_input_from (console w)) as [[r rest] o]. simpl in *.
  split; assumption.
Qed.

Ltac skip_step :=
  first [ apply skips_ret | apply skips_print
        | apply skips_call; reflexivity
        | apply skips_input | apply skips_get_text_input
        | apply skips_bind; [|intros ?]
        | apply skips_try; [|intros ?] ].

Lemma skips_record_audio env : skips_google (record_audio env).
Proof. unfold record_audio. repeat skip_step. Qed.

Lemma skips_speech_to_text env p : skips_google (speech_to_text env p).
Proof. unfold speech_to_text. repeat skip_step. Qed.

Lemma skips_fallback_tts env t : skips_google (fallback_tts env t).
Proof. unfold fallback_tts. repeat skip_step. Qed.

(** With the flag cleared, [text_to_speech] is its fallback block. *)
Lemma text_to_speech_flag_cleared env text emotion w :
  use_google_tts (bot w) = false ->
  text_to_speech env text emotion w = fallback_tts env text w.
Proof.
  intros H. unfold text_to_speech, bind, get_bot. rewrite H. simpl.
  destruct (fallback_tts env text w) as [[r w'] o]. reflexivity.
Qed.

Lemma skips_text_to_speech env t e : skips_google (text_to_speech env t e).
Proof.
  intros w H. rewrite (text_to_speech_flag_cleared env t e w H).
  apply skips_fallback_tts. exact H.
Qed.

Lemma skips_turn_acquire env : skips_google (turn_acquire env).
Proof.
  unfold turn_acquire.
  apply skips_bind; [apply skips_record_audio | intros [path|]].
  - apply skips_bind; [apply skips_speech_to_text | intros td].
    repeat skip_step.
  - apply skips_bind; [skip_step | intros [[text|] d]]; simpl; repeat skip_step.
Qed.

Lemma skips_turn_respond env t : skips_google (turn_respond env t).
Proof.
  unfold turn_respond, analyze_emotion.
  apply skips_bind; [skip_step | intros ec].
  apply skips_bind; [skip_step | intros _].
  apply skips_bind; [intros w H; split; [exact H | reflexivity] | intros r].
  apply skips_bind; [skip_step | intros _].
  apply skips_bind; [apply skips_text_to_speech | intros audio].
  apply skips_bind; [destruct audio; skip_step | intros _].
  repeat skip_step.
Qed.

Lemma skips_save_feedback env i r c : skips_google (save_feedback env i r c).
Proof. intros w H. split; [exact H | reflexivity]. Qed.

Lemma skips_turn_feedback env t r : skips_google (turn_feedback env t r).
Proof.
  unfold turn_feedback. apply skips_bind; [skip_step | intros entry].
  destruct (negb (str_eqb (str_lower entry) yes_word)); [|skip_step].
  apply skips_bind; [skip_step | intros c]. apply skips_save_feedback.
Qed.

Lemma skips_loop_body env : skips_google (loop_body env).
Proof.
  unfold loop_body.
  apply skips_bind; [apply skips_turn_acquire | intros [text|]]; [|skip_step].
  apply skips_bind; [apply skips_turn_respond | intros response].
  apply skips_bind; [apply skips_turn_feedback | intros _]. skip_step.
Qed.

Lemma skips_while_true script : skips_google (while_true script).
Proof.
  induction script as [|env rest IH]; simpl; [skip_step|].
  apply skips_bind; [apply skips_loop_body | intros [|]];
    [exact IH | skip_step].
Qed.

Lemma fallback_tts_first_action env text w :
  exists rest, actions_of (fallback_tts env text w) = GTTS text (u "ar") :: rest.
Proof.
  unfold fallback_tts, try_except_Exception, bind, call, ret, print.
  destruct (gtts_save env) as [[]|e]; simpl.
  - eexists; reflexivity.
  - destruct (is_Exception e); simpl; eexists; reflexivity.
Qed.

(** C1: when the call to the Google backend raises, [text_to_speech] clears
    [use_google_tts]; whatever is done with the object afterwards, the flag
    stays cleared; every later [text_to_speech] call starts with the gTTS
    fallback and makes no call to Google, and so does every later iteration
    of the loop.  In general no method ever switches the flag on. *)
Theorem primary_failure_is_permanent
  (env : Env) (text emotion : str) (w : World) (e : exn) :
  use_google_tts (bot w) = true ->
  tts_client (bot w) <> None ->
  synthesize_speech env = Raise e ->
  is_Exception e = true ->
  let w1 := state_of (text_to_speech env text emotion w) in
  use_google_tts (bot w1) = false
  /\ (forall ops, use_google_tts (bot (run_ops ops w1)) = false)
  /\ (forall ops env' text' emotion',
        let later := text_to_speech env' text' emotion' (run_ops ops w1) in
        calls_google (actions_of later) = false /\
        exists rest, actions_of later = GTTS text' (u "ar") :: rest)
  /\ (forall ops script,
        calls_google (actions_of (while_true script (run_ops ops w1))) = false)
  /\ (forall ops w0,
        use_google_tts (bot w0) = false ->
        use_google_tts (bot (run_ops ops w0)) = false).
Proof.
  intros Hflag Hclient Hfail Hexc w1.
  assert (Hmono : forall ops w0, use_google_tts (bot w0) = false ->
                                 use_google_tts (bot (run_ops ops w0)) = false).
  { intros ops w0 H0.
    destruct (use_google_tts (bot (run_ops ops w0))) eqn:E; [|reflexivity].
    apply (flag_not_raised_run_ops ops w0) in E. congruence. }
  assert (H1 : use_google_tts (bot w1) = false).
  { subst w1. unfold text_to_speech, bind, get_bot. rewrite Hflag.
    destruct (tts_client (bot w)) as [c|]; [|congruence]. simpl.
    unfold try_except_Exception, bind, call. rewrite Hfail, Hexc. simpl.
    destruct (fallback_tts env text (set_use_google_tts false w))
      as [[r w'] o] eqn:Ef. simpl.
    pose proof (skips_fallback_tts env text
                  (set_use_google_tts false w) eq_refl) as [Hs _].
    rewrite Ef in Hs. exact Hs. }
  split; [exact H1|]. split; [intros ops; apply Hmono; exact H1|].
  split; [|split; [|exact Hmono]].
  - intros ops env' text' emotion' later. subst later.
    rewrite (text_to_speech_flag_cleared env' text' emotion' _ (Hmono ops w1 H1)).
    split.
    + apply skips_fallback_tts. apply Hmono. exact H1.
    + apply fallback_tts_first_action.
  - intros ops script. apply skips_while_true. apply Hmono. exact H1.
Qed.

Lemma primary_failure_is_permanent_witness :
  use_google_tts
    (bot (state_of (text_to_speech (env_google_down (u "مرحبا") (u "neutral"))
                      (u "فهمت. ماذا تريد أن تفعل الآن؟") (u "neutral")
                      (mkWorld bot_google []))))
  = false.
Proof.
  apply (proj1 (primary_failure_is_permanent
                  (env_google_down (u "مرحبا") (u "neutral"))
                  (u "فهمت. ماذا تريد أن تفعل الآن؟") (u "neutral")
                  (mkWorld bot_google []) OtherError
                  eq_refl
                  (fun H : Some tt = None => eq_ind (Some tt)
                     (fun o => match o with Some _ => True | None => False end)
                     I None H)
                  eq_refl eq_refl)).
Defined.

(** ** Feedback *)

Lemma turn_feedback_db (env : Env) (text response : str) (w : World) :
  feedback_db (bot (state_of (turn_feedback env text response w)))
  = feedback_db (bot w)
  \/ exists correction,
      feedback_db (bot (state_of (turn_feedback env text response w)))
      = feedback_db (bot w)
          ++ [mkFeedback (datetime_now env) text response correction].
Proof.
  unfold turn_feedback, bind, input, save_feedback, modify, ret.
  destruct (console w) as [|[entry|] rest]; simpl; auto.
  destruct (negb (str_eqb (str_lower entry) yes_word)); simpl; auto.
  destruct rest as [|[correction|] rest']; simpl; auto.
  right. exists correction. reflexivity.
Qed.

(** What a feedback prompt that returns has read and done. *)
Lemma turn_feedback_ok
  (env : Env) (text response : str) (w w' : World) (o : list action) :
  turn_feedback env text response w = (Ok tt, w', o) ->
  exists entry rest,
    console w = Line entry :: rest /\
    ((str_lower entry = yes_word /\ w' = set_console rest w)
     \/ (str_lower entry <> yes_word /\
         exists correction rest',
           rest = Line correction :: rest' /\
           w' = append_feedback
                  (mkFeedback (datetime_now env) text response correction)
                  (set_console rest' w))).
Proof.
  unfold turn_feedback, bind, input, save_feedback, modify, ret.
  destruct (console w) as [|[entry|] rest]; simpl; try discriminate.
  destruct (str_eqb (str_lower entry) yes_word) eqn:E; simpl.
  - intros H. inversion H; subst. exists entry, rest.
    split; [reflexivity|]. left. split; [|reflexivity].
    apply str_eqb_eq. exact E.
  - destruct rest as [|[correction|] rest']; simpl; try discriminate.
    intros H. inversion H; subst. exists entry, (Line correction :: rest').
    split; [reflexivity|]. right. split; [apply str_eqb_neq; exact E|].
    exists correction, rest'. split; reflexivity.
Qed.

(** A feedback prompt that raises has saved nothing. *)
Lemma turn_feedback_raise_db
  (env : Env) (text response : str) (w : World) (e : exn) :
  result_of (turn_feedback env text response w) = Raise e ->
  feedback_db (bot (state_of (turn_feedback env text response w)))
  = feedback_db (bot w).
Proof.
  unfold turn_feedback, bind, input, save_feedback, modify, ret,
    result_of, state_of.
  destruct (console w) as [|[entry|] rest]; simpl; try reflexivity.
  destruct (negb (str_eqb (str_lower entry) yes_word)); simpl;
    [|discriminate].
  destruct rest as [|[correction|] rest']; simpl;
    [reflexivity | discriminate | reflexivity].
Qed.

(** C7, as the code has it: the rating is the entry at the feedback prompt
    lower-cased.  When it is "y", [feedback_db] is left as it is.  When it is
    anything else and the correction is then entered, exactly one record is
    appended, holding the clock reading, the turn's input text, the bot's
    response and that correction.  This is what happens in every turn that
    runs to its end, with the text acquired and the response generated in
    that turn; a turn that is cut short, for instance by Ctrl-C or the end of
    input at the correction prompt, appends nothing.  No turn adds more than
    one record, and whatever is done with the object nothing already in
    [feedback_db] is removed or changed: the old list stays a prefix of the
    new one. *)
Theorem feedback_grows_by_rating (env : Env) (text response : str) (w : World) :
  (forall entry rest,
      console w = Line entry :: rest ->
      str_lower entry = yes_word ->
      turn_feedback env text response w
      = (Ok tt, set_console rest w, [Input Prompt_was_good]))
  /\ (forall entry correction rest,
      console w = Line entry :: Line correction :: rest ->
      str_lower entry <> yes_word ->
      turn_feedback env text response w
      = (Ok tt,
         append_feedback
           (mkFeedback (datetime_now env) text response correction)
           (set_console rest w),
         [Input Prompt_was_good; Input Prompt_correct_response]))
  /\ (forall w' o,
      loop_body env w = (Ok Continue, w', o) ->
      exists said reply entry rest,
        result_of (turn_acquire env w) = Ok (Some said) /\
        result_of (turn_respond env said (state_of (turn_acquire env w)))
        = Ok reply /\
        console (state_of (turn_respond env said
                             (state_of (turn_acquire env w))))
        = Line entry :: rest /\
        (str_lower entry = yes_word ->
         feedback_db (bot w') = feedback_db (bot w)) /\
        (str_lower entry <> yes_word ->
         exists correction rest',
           rest = Line correction :: rest' /\
           feedback_db (bot w')
           = feedback_db (bot w)
               ++ [mkFeedback (datetime_now env) said reply correction]))
  /\ (result_of (loop_body env w) <> Ok Continue ->
      feedback_db (bot (state_of (loop_body env w))) = feedback_db (bot w))
  /\ (feedback_db (bot (state_of (loop_body env w))) = feedback_db (bot w)
      \/ exists record,
          feedback_db (bot (state_of (loop_body env w)))
          = feedback_db (bot w) ++ [record])
  /\ (forall ops,
      exists added,
        feedback_db (bot (run_ops ops w)) = feedback_db (bot w) ++ added).
Proof.
  split; [|split; [|split; [|split; [|split]]]].
  - intros entry rest Hc Hy.
    unfold turn_feedback, bind, input. rewrite Hc. simpl.
    rewrite Hy, str_eqb_refl. reflexivity.
  - intros entry correction rest Hc Hn.
    unfold turn_feedback, bind, input. rewrite Hc. simpl.
    apply str_eqb_neq in Hn. rewrite Hn. reflexivity.
  - intros w' o. unfold loop_body, bind.
    pose proof (db_same_turn_acquire env w) as Ha.
    unfold db_same, result_of, state_of in *.
    destruct (turn_acquire env w) as [[[[t|]|e] wa] oa]; simpl in *;
      try discriminate.
    pose proof (db_same_turn_respond env t wa) as Hr.
    unfold db_same, state_of in *.
    destruct (turn_respond env t wa) as [[[r|e] wr] orr] eqn:Er; simpl in *;
      try discriminate.
    destruct (turn_feedback env t r wr) as [[[[]|e] wf] o2] eqn:Ef; simpl;
      try discriminate.
    intros H. inversion H; subst.
    destruct (turn_feedback_ok env t r wr w' o2 Ef)
      as (entry & rest & Hc & Hcase).
    exists t, r, entry, rest. rewrite Er. simpl.
    split; [reflexivity|]. split; [reflexivity|]. split; [exact Hc|].
    destruct Hcase as [[Hy ->] | (Hn & c & rest' & -> & ->)].
    + split; [intros _; simpl; congruence | intros Hn; contradiction].
    + split; [intros Hy; contradiction|].
      intros _. exists c, rest'. split; [reflexivity|].
      simpl. rewrite Hr, Ha. reflexivity.
  - unfold loop_body, bind.
    pose proof (db_same_turn_acquire env w) as Ha.
    unfold db_same, result_of, state_of in *.
    destruct (turn_acquire env w) as [[[[t|]|e] wa] oa]; simpl in *; auto.
    pose proof (db_same_turn_respond env t wa) as Hr.
    unfold db_same, state_of in *.
    destruct (turn_respond env t wa) as [[[r|e] wr] orr]; simpl in *;
      [|intros _; congruence].
    pose proof (turn_feedback_raise_db env t r wr) as Hf.
    unfold result_of, state_of in *.
    destruct (turn_feedback env t r wr) as [[[[]|e] wf] o2]; simpl in *.
    + intros H. exfalso. apply H. reflexivity.
    + intros _. rewrite (Hf e eq_refl). congruence.
  - unfold loop_body, bind.
    pose proof (db_same_turn_acquire env w) as Ha.
    unfold db_same, state_of in *.
    destruct (turn_acquire env w) as [[[[t|]|e] wa] oa]; simpl in *; auto.
    pose proof (db_same_turn_respond env t wa) as Hr.
    unfold db_same, state_of in *.
    destruct (turn_respond env t wa) as [[[r|e] wr] orr]; simpl in *;
      [|left; congruence].
    pose proof (turn_feedback_db env t r wr) as Hf.
    unfold state_of in *.
    destruct (turn_feedback env t r wr) as [[[[]|e] wf] o2]; simpl in *;
      (destruct Hf as [Hf | [c Hf]];
       [left; congruence | right; eexists; rewrite Hf, Hr, Ha; reflexivity]).
  - intros ops. apply db_extends_run_ops.
Qed.

Lemma feedback_grows_by_rating_witness :
  turn_feedback (env_ok (u "مرحبا") (u "neutral")) (u "مرحبا")
                (u "فهمت. ماذا تريد أن تفعل الآن؟")
                (mkWorld bot_fallback [Line (u "Y"); Line (u "next")])
  = (Ok tt, mkWorld bot_fallback [Line (u "next")], [Input Prompt_was_good])
  /\ turn_feedback (env_ok (u "مرحبا") (u "neutral")) (u "مرحبا")
                   (u "فهمت. ماذا تريد أن تفعل الآن؟")
                   (mkWorld bot_fallback [Line (u "n"); Line (u "أهلا")])
     = (Ok tt,
        mkWorld (mkMKAI None false
                   [mkFeedback 0 (u "مرحبا")
                      (u "فهمت. ماذا تريد أن تفعل الآن؟") (u "أهلا")] [])
                [],
        [Input Prompt_was_good; Input Prompt_correct_response])
  /\ feedback_db
       (bot (state_of (loop_body (env_ok (u "مرحبا") (u "neutral"))
                                 (mkWorld bot_fallback [Line (u "n"); CtrlC]))))
     = [].
Proof.
  split; [|split].
  - apply (proj1 (feedback_grows_by_rating
                    (env_ok (u "مرحبا") (u "neutral")) (u "مرحبا")
                    (u "فهمت. ماذا تريد أن تفعل الآن؟")
                    (mkWorld bot_fallback [Line (u "Y"); Line (u "next")]))
                 (u "Y") [Line (u "next")]); reflexivity.
  - apply (proj1 (proj2 (feedback_grows_by_rating
                    (env_ok (u "مرحبا") (u "neutral")) (u "مرحبا")
                    (u "فهمت. ماذا تريد أن تفعل الآن؟")
                    (mkWorld bot_fallback [Line (u "n"); Line (u "أهلا")])))
                 (u "n") (u "أهلا") []).
    + reflexivity.
    + vm_compute. discriminate.
  - apply (proj1 (proj2 (proj2 (proj2 (feedback_grows_by_rating
                    (env_ok (u "مرحبا") (u "neutral")) (u "مرحبا")
                    (u "فهمت. ماذا تريد أن تفعل الآن؟")
                    (mkWorld bot_fallback [Line (u "n"); CtrlC])))))).
    vm_compute. discriminate.
Defined.

(** C7 as stated fails.  A rating "Y" is not 'y', yet the turn runs to its
    end and appends nothing, because the entry is lower-cased before the
    comparison.  A rating "n" is not 'y' either, yet with Ctrl-C at the
    correction prompt the turn appends nothing. *)
Lemma feedback_rating_counterexample :
  u "Y" <> yes_word
  /\ result_of (loop_body (env_ok (u "مرحبا") (u "neutral"))
                          (mkWorld bot_fallback
                             [Line (u "Y"); Line (u "أهلا")]))
     = Ok Continue
  /\ feedback_db
       (bot (state_of (loop_body (env_ok (u "مرحبا") (u "neutral"))
                                 (mkWorld bot_fallback
                                    [Line (u "Y"); Line (u "أهلا")]))))
     = feedback_db bot_fallback
  /\ u "n" <> yes_word
  /\ In (Input Prompt_was_good)
        (actions_of (loop_body (env_ok (u "مرحبا") (u "neutral"))
                               (mkWorld bot_fallback [Line (u "n"); CtrlC])))
  /\ feedback_db
       (bot (state_of (loop_body (env_ok (u "مرحبا") (u "neutral"))
                                 (mkWorld bot_fallback [Line (u "n"); CtrlC]))))
     = feedback_db bot_fallback.
Proof.
  split; [vm_compute; discriminate|].
  split; [reflexivity|]. split; [reflexivity|].
  split; [vm_compute; discriminate|].
  split; [vm_compute; auto 20 | reflexivity].
Qed.

(** ** Synthesis failure and playback *)

Lemma text_to_speech_both_fail
  (env : Env) (text emotion : str) (w : World) (e1 e2 : exn) :
  synthesize_speech env = Raise e1 -> is_Exception e1 = true ->
  gtts_save env = Raise e2 -> is_Exception e2 = true ->
  exists w' o,
    text_to_speech env text emotion w = (Ok None, w', o) /\ ~ In Sd_play o.
Proof.
  intros H1 He1 H2 He2.
  unfold text_to_speech, fallback_tts, try_except_Exception, bind, get_bot,
    call, print, modify, ret.
  destruct (use_google_tts (bot w) && not_None (tts_client (bot w))); simpl.
  - rewrite H1, He1. simpl. rewrite H2, He2. simpl.
    eexists; eexists; split; [reflexivity|].
    simpl. intros [H|[H|[H|[H|[]]]]]; discriminate H.
  - rewrite H2, He2. simpl.
    eexists; eexists; split; [reflexivity|].
    simpl. intros [H|[H|[]]]; discriminate H.
Qed.

(** C2, what the code does: when both backends raise, [text_to_speech]
    returns [None]; the loop then passes that [None] to [sf.read], which
    raises [TypeError]; nothing is played, the feedback prompt is not
    reached, and since the script catches [KeyboardInterrupt] only, the run
    ends there. *)
Theorem both_backends_fail_ends_run
  (env : Env) (text emotion reply : str) (confidence : Q) (w : World)
  (e1 e2 : exn) :
  sentiment_analyzer env = Ok (emotion, confidence) ->
  generate_response text emotion = Ok reply ->
  synthesize_speech env = Raise e1 -> is_Exception e1 = true ->
  gtts_save env = Raise e2 -> is_Exception e2 = true ->
  result_of (text_to_speech env reply emotion w) = Ok None
  /\ result_of (turn_respond env text w) = Raise TypeError
  /\ In (Sf_read None) (actions_of (turn_respond env text w))
  /\ ~ In Sd_play (actions_of (turn_respond env text w))
  /\ (forall w0 oa script,
        turn_acquire env w0 = (Ok (Some text), w, oa) ->
        loop_body env w0
        = (Raise TypeError, state_of (turn_respond env text w),
           oa ++ actions_of (turn_respond env text w))
        /\ fst (fst (main (env :: script) w0)) = Crashed TypeError).
Proof.
  intros Hs Hg H1 He1 H2 He2.
  destruct (text_to_speech_both_fail env reply emotion w e1 e2 H1 He1 H2 He2)
    as (w' & o & Htts & Hplay).
  assert (Hr : turn_respond env text w
               = (Raise TypeError, w',
                  [Classify text;
                   Stdout (Msg_detected_emotion emotion confidence);
                   Stdout (Msg_bot reply)] ++ o ++ [Sf_read None])).
  { unfold turn_respond, analyze_emotion, bind, call, print.
    rewrite Hs. simpl. rewrite Hg. simpl. rewrite Htts. simpl.
    reflexivity. }
  split; [rewrite Htts; reflexivity|].
  split; [rewrite Hr; reflexivity|].
  split; [|split].
  - rewrite Hr. simpl. right. right. right.
    apply in_or_app. right. left. reflexivity.
  - rewrite Hr. simpl. intros [H|[H|[H|H]]]; try discriminate H.
    apply in_app_or in H. destruct H as [H|[H|[]]];
      [exact (Hplay H) | discriminate H].
  - intros w0 oa script Ha.
    assert (Hl : loop_body env w0
                 = (Raise TypeError, state_of (turn_respond env text w),
                    oa ++ actions_of (turn_respond env text w))).
    { unfold loop_body, bind. rewrite Ha, Hr. reflexivity. }
    split; [exact Hl|].
    unfold main. simpl. unfold bind at 1. rewrite Hl. reflexivity.
Qed.

Lemma both_backends_fail_ends_run_witness :
  fst (fst (main [env_tts_down (u "مرحبا") (u "neutral")]
                 (mkWorld bot_google [Line (u "y")])))
  = Crashed TypeError.
Proof.
  refine (proj2 (proj2 (proj2 (proj2 (proj2
    (both_backends_fail_ends_run
       (env_tts_down (u "مرحبا") (u "neutral"))
       (u "مرحبا") (u "neutral") (u "فهمت. ماذا تريد أن تفعل الآن؟")
       (9 # 10) (mkWorld bot_google [Line (u "y")])
       OtherError OtherError
       eq_refl eq_refl eq_refl eq_refl eq_refl eq_refl))))
    (mkWorld bot_google [Line (u "y")]) _ [] eq_refl)).
Defined.

(** ** Voice parameters *)

Lemma dict_get_ok_key {V} (d : list (str * V)) (key : str) (v : V) :
  dict_get d key = Ok v -> In key (map fst d).
Proof.
  induction d as [|[k x] d IH]; simpl; [discriminate|].
  destruct (str_eqb k key) eqn:E.
  - intros _. left. apply str_eqb_eq. exact E.
  - intros H. right. exact (IH H).
Qed.

(** [generate_response] returns only for the keys of [responses]. *)
Lemma generate_response_ok_key (text emotion reply : str) :
  generate_response text emotion = Ok reply -> In emotion (map fst responses).
Proof.
  unfold generate_response.
  destruct (dict_get responses emotion) as [c|e] eqn:E; [|discriminate].
  intros _. exact (dict_get_ok_key responses emotion c E).
Qed.

Lemma fallback_tts_quiet (env : Env) (text : str) (w : World) (a : action) :
  In a (actions_of (fallback_tts env text w)) -> is_google_call a = false.
Proof.
  unfold fallback_tts, try_except_Exception, bind, call, print, ret.
  destruct (gtts_save env) as [[]|e]; simpl.
  - intros [H|[]]; subst; reflexivity.
  - destruct (is_Exception e); simpl.
    + intros [H|[H|[]]]; subst; reflexivity.
    + intros [H|[]]; subst; reflexivity.
Qed.

(** The only request [text_to_speech] sends to Google. *)
Lemma text_to_speech_google_request
  (env : Env) (text emotion : str) (w : World) (a : action) :
  In a (actions_of (text_to_speech env text emotion w)) ->
  is_google_call a = true ->
  a = Synthesize_speech text (voice_name emotion)
        (speaking_rate_of emotion) (pitch_of emotion).
Proof.
  unfold text_to_speech, bind, get_bot.
  destruct (use_google_tts (bot w) && not_None (tts_client (bot w))); simpl.
  - unfold try_except_Exception, bind, call.
    destruct (synthesize_speech env) as [[]|e]; simpl.
    + intros [H|[]] _. symmetry. exact H.
    + destruct (is_Exception e); simpl.
      * pose proof (fallback_tts_quiet env text (set_use_google_tts false w) a)
          as Hq.
        destruct (fallback_tts env text (set_use_google_tts false w))
          as [[r w'] o]. simpl in *.
        intros [H|[H|H]] Hg.
        -- symmetry. exact H.
        -- subst a. discriminate Hg.
        -- rewrite (Hq H) in Hg. discriminate Hg.
      * intros [H|[]] _. symmetry. exact H.
  - pose proof (fallback_tts_quiet env text w a) as Hq.
    destruct (fallback_tts env text w) as [[r w'] o]. simpl in *.
    intros H Hg. rewrite (Hq H) in Hg. discriminate Hg.
Qed.

(** C8, what the code does: the voice name is B for "positive" and D for
    every other emotion, but the speaking rate is raised only for "happy"
    and the pitch only for "excited"; for each of the labels positive,
    negative and neutral the Google request carries rate 1.0 and pitch 0.
    In the loop [generate_response] has already raised for any other label,
    so every request a turn sends to Google has rate 1.0 and pitch 0. *)
Theorem prosody_constant_on_vocabulary (emotion : str) :
  In emotion (map fst responses) ->
  speaking_rate_of emotion = 1 # 1
  /\ pitch_of emotion = 0%Z
  /\ (voice_name emotion = u "ar-XA-Standard-B" <-> emotion = u "positive")
  /\ (forall env text w,
        use_google_tts (bot w) = true -> tts_client (bot w) <> None ->
        exists rest,
          actions_of (text_to_speech env text emotion w)
          = Synthesize_speech text (voice_name emotion) (1 # 1) 0 :: rest)
  /\ (forall env text w reply name rate pitch,
        In (Synthesize_speech reply name rate pitch)
           (actions_of (turn_respond env text w)) ->
        rate = 1 # 1 /\ pitch = 0%Z).
Proof.
  intros Hin.
  assert (Hrate : speaking_rate_of emotion = 1 # 1)
    by (simpl in Hin; destruct Hin as [H|[H|[H|[]]]]; subst; reflexivity).
  assert (Hpitch : pitch_of emotion = 0%Z)
    by (simpl in Hin; destruct Hin as [H|[H|[H|[]]]]; subst; reflexivity).
  split; [exact Hrate|]. split; [exact Hpitch|]. split; [|split].
  - unfold voice_name. destruct (str_eqb emotion (u "positive")) eqn:E.
    + apply str_eqb_eq in E. split; [intros _; exact E | reflexivity].
    + apply str_eqb_neq in E. split; [discriminate | intros H; contradiction].
  - intros env text w Hf Hc.
    unfold text_to_speech, bind, get_bot. rewrite Hf.
    destruct (tts_client (bot w)) as [c|]; [|congruence]. simpl.
    rewrite Hrate, Hpitch.
    unfold try_except_Exception, bind, call.
    destruct (synthesize_speech env) as [[]|e]; simpl.
    + eexists; reflexivity.
    + destruct (is_Exception e); simpl.
      * destruct (fallback_tts env text (set_use_google_tts false w))
          as [[r w'] o]. simpl. eexists; reflexivity.
      * eexists; reflexivity.
  - clear. intros env text w reply name rate pitch.
    unfold turn_respond, analyze_emotion, bind, call, print.
    destruct (sentiment_analyzer env) as [[label conf]|e]; simpl;
      [|intros [H|[]]; discriminate H].
    destruct (generate_response text label) as [r|e] eqn:G; simpl;
      [|intros [H|[H|[]]]; discriminate H].
    pose proof (generate_response_ok_key text label r G) as Hkey.
    pose proof (text_to_speech_google_request env r label w
                  (Synthesize_speech reply name rate pitch)) as Hreq.
    assert (Hdone : Synthesize_speech reply name rate pitch
                    = Synthesize_speech r (voice_name label)
                        (speaking_rate_of label) (pitch_of label) ->
                    rate = 1 # 1 /\ pitch = 0%Z).
    { intros Heq. inversion Heq; subst. simpl in Hkey.
      destruct Hkey as [K|[K|[K|[]]]]; subst label; split; reflexivity. }
    destruct (text_to_speech env r label w) as [[[audio|e] w1] o1];
      simpl in *.
    + unfold sf_read_file, call.
      destruct audio as [path|];
        [destruct (sf_read env) as [[]|e];
         [destruct (sd_play env) as [[]|e]|]|]; simpl;
        (intros [H|[H|[H|H]]]; try discriminate H;
         apply in_app_or in H; destruct H as [H|H];
         [exact (Hdone (Hreq H eq_refl))
         | exfalso; simpl in H; intuition discriminate]).
    + intros [H|[H|[H|H]]]; try discriminate H.
      exact (Hdone (Hreq H eq_refl)).
Qed.

Lemma prosody_constant_on_vocabulary_witness :
  speaking_rate_of (u "positive") = speaking_rate_of (u "negative")
  /\ pitch_of (u "positive") = pitch_of (u "negative").
Proof.
  assert (Hp : In (u "positive") (map fst responses)) by (left; reflexivity).
  assert (Hn : In (u "negative") (map fst responses))
    by (right; left; reflexivity).
  destruct (prosody_constant_on_vocabulary (u "positive") Hp) as [R1 [P1 _]].
  destruct (prosody_constant_on_vocabulary (u "negative") Hn) as [R2 [P2 _]].
  split; [rewrite R1, R2 | rewrite P1, P2]; reflexivity.
Defined.

(** ** Leaving the loop *)

Lemma record_audio_outcome (env : Env) (w : World) :
  state_of (record_audio env w) = w
  /\ (capture_ok env -> result_of (record_audio env w) = Ok (Some input_wav))
  /\ (result_of (record_audio env w) = Ok None -> ~ capture_ok env).
Proof.
  unfold capture_ok, record_audio, try_except_Exception, bind, call, print, ret.
  destruct (sd_rec env) as [[]|e1]; simpl.
  - destruct (sf_write env) as [[]|e2]; simpl.
    + repeat split; [discriminate].
    + destruct (is_Exception e2); simpl; repeat split;
        try (intros [_ H]; discriminate H); intros _ [_ H]; discriminate H.
  - destruct (is_Exception e1); simpl; repeat split;
      try (intros [H _]; discriminate H); intros _ [H _]; discriminate H.
Qed.

Lemma get_text_input_from_exit (entries : list console_event) (d : option str) :
  fst (fst (get_text_input_from entries)) = Ok (None, d) -> d = None.
Proof.
  induction entries as [|[text|] rest IH]; simpl.
  - discriminate.
  - destruct (str_eqb (str_lower text) exit_word); simpl;
      [intros H; inversion H; reflexivity|].
    destruct (truthy (strip text)); simpl; [discriminate|].
    destruct (get_text_input_from rest) as [[r rest'] o]. exact IH.
  - intros H. inversion H. reflexivity.
Qed.

(** With audio recorded, the input of the turn is the transcript and the
    turn is never a [break]. *)
Lemma turn_acquire_speech (env : Env) (w : World) :
  capture_ok env ->
  match transcribe env with
  | Ok transcript =>
      result_of (turn_acquire env w) = Ok (Some (dediac_ar transcript))
  | Raise e => result_of (turn_acquire env w) = Raise e
  end.
Proof.
  intros [H1 H2].
  unfold turn_acquire, record_audio, speech_to_text, try_except_Exception,
    bind, call, print, ret.
  rewrite H1. simpl. rewrite H2. simpl.
  destruct (transcribe env) as [t|e]; reflexivity.
Qed.

Lemma loop_body_flow (env : Env) (w : World) :
  match result_of (turn_acquire env w) with
  | Ok (Some _) => result_of (loop_body env w) <> Ok Break
  | Ok None => result_of (loop_body env w) = Ok Break
  | Raise e => result_of (loop_body env w) = Raise e
  end.
Proof.
  unfold loop_body, bind.
  destruct (turn_acquire env w) as [[[[t|]|e] wa] oa]; simpl;
    try reflexivity.
  destruct (turn_respond env t wa) as [[[r|e] wr] orr]; simpl;
    [|discriminate].
  destruct (turn_feedback env t r wr) as [[[[]|e] wf] o2]; simpl; discriminate.
Qed.

Lemma loop_body_no_break (env : Env) (w : World) :
  capture_ok env -> result_of (loop_body env w) <> Ok Break.
Proof.
  intros Hc. pose proof (turn_acquire_speech env w Hc) as Ha.
  pose proof (loop_body_flow env w) as Hl.
  destruct (transcribe env) as [t|e]; rewrite Ha in Hl;
    [exact Hl | rewrite Hl; discriminate].
Qed.

Lemma while_true_no_exit (script : list Env) :
  Forall capture_ok script ->
  forall w, result_of (while_true script w) <> Ok Exited.
Proof.
  induction 1 as [|env rest Hc _ IH]; intros w; simpl; [discriminate|].
  unfold bind. pose proof (loop_body_no_break env w Hc) as Hb.
  unfold result_of in *.
  destruct (loop_body env w) as [[[[|]|e] w1] o1]; simpl in *;
    [|congruence|discriminate].
  specialize (IH w1).
  destruct (while_true rest w1) as [[r w2] o2]. exact IH.
Qed.

(** C10: the loop is left by [break] only through text entry.  In a turn
    where audio was recorded the turn is never a [break], whatever the
    transcript says (a spoken "exit" is passed on as the turn's text); a
    turn is a [break] only when [record_audio] returned [None] and
    [get_text_input] returned the exit value; a run in which every turn
    records audio never ends by [break] (it can still be stopped by
    [KeyboardInterrupt] or by an exception). *)
Theorem exit_only_through_text_entry (env : Env) (w : World) :
  (capture_ok env -> result_of (loop_body env w) <> Ok Break)
  /\ (capture_ok env -> transcribe env = Ok exit_word ->
      result_of (turn_acquire env w) = Ok (Some exit_word))
  /\ (result_of (loop_body env w) = Ok Break ->
      ~ capture_ok env
      /\ result_of (record_audio env w) = Ok None
      /\ result_of (get_text_input w) = Ok (None, None))
  /\ (forall script,
        Forall capture_ok script -> fst (fst (main script w)) <> Exited).
Proof.
  split; [apply loop_body_no_break|]. split; [|split].
  - intros Hc Ht. pose proof (turn_acquire_speech env w Hc) as Ha.
    rewrite Ht in Ha. exact Ha.
  - intros Hb. pose proof (loop_body_flow env w) as Hl.
    destruct (record_audio_outcome env w) as [Hst [Hok Hnone]].
    unfold turn_acquire, bind in Hl. unfold state_of, result_of in *.
    destruct (record_audio env w) as [[[[path|]|e] w1] o1]; simpl in *.
    + exfalso.
      destruct (speech_to_text env path w1) as [[[td|e] w2] o2]; simpl in *;
        congruence.
    + subst w1. split; [apply Hnone; reflexivity|]. split; [reflexivity|].
      pose proof (get_text_input_from_exit (console w)) as Hexit.
      unfold get_text_input in *.
      destruct (get_text_input_from (console w)) as [[[[[t|] d]|e] rest] o2];
        simpl in *; try congruence.
      rewrite (Hexit d eq_refl). reflexivity.
    + congruence.
  - intros script Hall. unfold main.
    pose proof (while_true_no_exit script Hall w) as Hne.
    unfold result_of in Hne.
    destruct (while_true script w) as [[[st|e] w1] o1]; simpl in *.
    + congruence.
    + destruct e; simpl; discriminate.
Qed.

Lemma exit_only_through_text_entry_witness :
  result_of (loop_body (env_ok exit_word (u "neutral"))
                       (mkWorld bot_fallback [Line (u "y")]))
  <> Ok Break
  /\ result_of (turn_acquire (env_ok exit_word (u "neutral"))
                             (mkWorld bot_fallback [Line (u "y")]))
     = Ok (Some exit_word).
Proof.
  split.
  - apply (proj1 (exit_only_through_text_entry
                    (env_ok exit_word (u "neutral"))
                    (mkWorld bot_fallback [Line (u "y")]))).
    split; reflexivity.
  - apply (proj1 (proj2 (exit_only_through_text_entry
                    (env_ok exit_word (u "neutral"))
                    (mkWorld bot_fallback [Line (u "y")])))).
    + split; reflexivity.
    + reflexivity.
Defined.

(** * Further properties of the code *)

(** ** Dialect detection, continued *)

Lemma occurs_trans (k t s : str) : occurs k t -> occurs t s -> occurs k s.
Proof.
  intros [a [b ->]] [c [d ->]]. exists (c ++ a), (b ++ d).
  repeat rewrite <- app_assoc. reflexivity.
Qed.

Lemma occurs_context (k t a b : str) : occurs k t -> occurs k (a ++ t ++ b).
Proof.
  intros H. apply (occurs_trans k t); [exact H|]. exists a, b. reflexivity.
Qed.

Lemma matches_context (dialect text a b : str) :
  matches dialect text -> matches dialect (a ++ text ++ b).
Proof.
  intros [k [Hin Hk]]. exists k. split; [exact Hin|].
  apply occurs_context. exact Hk.
Qed.

Lemma detect_dialect_in_range (items : list (str * list str)) (text : str) :
  In (detect_dialect_in items text) (map fst items ++ [msa]).
Proof.
  induction items as [|[d kws] items IH]; simpl; [left; reflexivity|].
  destruct (any_keyword_in kws text); [left; reflexivity | right; exact IH].
Qed.

Lemma no_keyword_detect_in (items : list (str * list str)) (text : str) :
  no_keyword_in items text -> detect_dialect_in items text = msa.
Proof.
  intros Hno.
  destruct (detect_dialect_in_first items text)
    as [(pre & d & kws & post & Heq & _ & [k [Hk Hocc]] & _) | [_ Hres]];
    [|exact Hres].
  exfalso. apply (Hno d kws k); auto.
  rewrite Heq. apply in_or_app. right. left. reflexivity.
Qed.

Lemma detect_in_msa_no_keyword (items : list (str * list str)) (text : str) :
  ~ In msa (map fst items) ->
  detect_dialect_in items text = msa -> no_keyword_in items text.
Proof.
  intros Hname Hmsa.
  destruct (detect_dialect_in_first items text)
    as [(pre & d & kws & post & Heq & _ & _ & Hres) | [Hno _]]; [|exact Hno].
  exfalso. apply Hname. rewrite Hmsa in Hres. subst d. rewrite Heq.
  rewrite map_app. apply in_or_app. right. left. reflexivity.
Qed.

Lemma msa_not_a_dialect_name : ~ In msa (map fst dialect_map).
Proof. simpl. intros [H|[H|[H|[]]]]; discriminate H. Qed.

Lemma detect_dialect_egyptian_matches (text : str) :
  detect_dialect text = u "egyptian" <-> matches (u "egyptian") text.
Proof.
  rewrite matches_any, detect_dialect_cases.
  destruct (any_keyword_in (keywords_of (u "egyptian")) text);
    [split; reflexivity|].
  destruct (any_keyword_in (keywords_of (u "gulf")) text);
    [split; discriminate|].
  destruct (any_keyword_in (keywords_of (u "levantine")) text);
    split; discriminate.
Qed.

Lemma mish_in_mishan_allah (text : str) :
  occurs (u "مشان الله") text -> matches (u "egyptian") text.
Proof.
  intros H. exists (u "مش"). split; [left; reflexivity|].
  apply (occurs_trans _ (u "مشان الله")); [|exact H].
  exists [], (u "ان الله"). reflexivity.
Qed.

(** X1: the tag is always one of egyptian, gulf, levantine and msa, and it
    is msa exactly when no keyword of the lexicon occurs in the text. *)
Theorem detect_dialect_msa_iff (text : str) :
  In (detect_dialect text) [u "egyptian"; u "gulf"; u "levantine"; msa]
  /\ (detect_dialect text = msa <-> no_keyword_in dialect_map text).
Proof.
  split; [exact (detect_dialect_in_range dialect_map text)|].
  unfold detect_dialect. split.
  - apply detect_in_msa_no_keyword. exact msa_not_a_dialect_name.
  - apply no_keyword_detect_in.
Qed.

Lemma detect_dialect_msa_iff_witness :
  detect_dialect (u "hello there") = msa.
Proof.
  apply (proj2 (proj2 (detect_dialect_msa_iff (u "hello there")))).
  apply no_keyword_in_forallb. reflexivity.
Defined.

(** X2: the levantine keyword "مشان الله" contains the egyptian keyword
    "مش", so every text with it is tagged egyptian; a text tagged levantine
    has one of the other two levantine keywords. *)
Theorem levantine_keyword_shadowed (text : str) :
  (occurs (u "مشان الله") text -> detect_dialect text = u "egyptian")
  /\ (detect_dialect text = u "levantine" ->
      occurs (u "شو أخبارك") text \/ occurs (u "يما") text).
Proof.
  split.
  - intros H. apply detect_dialect_egyptian_matches.
    apply mish_in_mishan_allah. exact H.
  - rewrite detect_dialect_cases.
    destruct (any_keyword_in (keywords_of (u "egyptian")) text) eqn:Ee;
      [discriminate|].
    destruct (any_keyword_in (keywords_of (u "gulf")) text); [discriminate|].
    destruct (any_keyword_in (keywords_of (u "levantine")) text) eqn:El;
      [|discriminate].
    intros _. apply any_keyword_in_occurs in El.
    destruct El as [k [Hin Hk]]. simpl in Hin.
    destruct Hin as [H|[H|[H|[]]]]; subst k;
      [left; exact Hk | | right; exact Hk].
    exfalso. apply mish_in_mishan_allah in Hk. apply matches_any in Hk.
    congruence.
Qed.

Lemma levantine_keyword_shadowed_witness :
  detect_dialect (u "يا زلمة مشان الله") = u "egyptian"
  /\ (occurs (u "شو أخبارك") (u "يما وين") \/ occurs (u "يما") (u "يما وين")).
Proof.
  split.
  - apply (proj1 (levantine_keyword_shadowed (u "يا زلمة مشان الله"))).
    exists (u "يا زلمة "), []. reflexivity.
  - apply (proj2 (levantine_keyword_shadowed (u "يما وين"))). reflexivity.
Defined.

(** X3: putting a text inside a longer one keeps an egyptian tag, and never
    turns a dialect tag into msa. *)
Theorem detect_dialect_context (a text b : str) :
  (detect_dialect text = u "egyptian" ->
   detect_dialect (a ++ text ++ b) = u "egyptian")
  /\ (detect_dialect text <> msa -> detect_dialect (a ++ text ++ b) <> msa).
Proof.
  split.
  - intros H. apply detect_dialect_egyptian_matches.
    apply matches_context. apply detect_dialect_egyptian_matches. exact H.
  - intros H Hmsa. apply H. unfold detect_dialect in *.
    apply no_keyword_detect_in.
    apply (detect_in_msa_no_keyword _ _ msa_not_a_dialect_name) in Hmsa.
    intros d kws k Hin Hk Hocc.
    apply (Hmsa d kws k Hin Hk). apply occurs_context. exact Hocc.
Qed.

Lemma detect_dialect_context_witness :
  detect_dialect (u "والله " ++ u "عاوز" ++ u " اروح") = u "egyptian"
  /\ detect_dialect (u "قال " ++ u "وينك" ++ u " اليوم") <> msa.
Proof.
  split.
  - apply (proj1 (detect_dialect_context (u "والله ") (u "عاوز") (u " اروح"))).
    reflexivity.
  - apply (proj2 (detect_dialect_context (u "قال ") (u "وينك") (u " اليوم"))).
    vm_compute. discriminate.
Defined.

(** ** Construction *)

(** X4: after construction the flag is set exactly when the credentials
    file exists and the client could be built, which is exactly when a
    client is stored; both logs start empty.  Construction itself fails only
    when building the client is interrupted. *)
Theorem init_outcome (cred_exists : bool) (client : res unit) :
  (forall b,
      init cred_exists client = Ok b ->
      (use_google_tts b = true <->
       cred_exists = true /\ exists c, client = Ok c)
      /\ (use_google_tts b = true <-> tts_client b <> None)
      /\ feedback_db b = [] /\ emotion_log b = [])
  /\ (forall e,
      init cred_exists client = Raise e ->
      cred_exists = true /\ client = Raise e /\ is_Exception e = false).
Proof.
  unfold init. split.
  - intros b. destruct cred_exists.
    + destruct client as [c|e].
      * intros H. inversion H; subst; simpl.
        split; [split; [intros _; split; [reflexivity | exists c; reflexivity]
                       | reflexivity]|].
        split; [split; [intros _; discriminate | reflexivity]|].
        split; reflexivity.
      * destruct (is_Exception e); intros H; inversion H; subst; simpl.
        split; [split; [discriminate | intros [_ [c Hc]]; discriminate Hc]|].
        split; [split; [discriminate
                       | intros Hn; exfalso; apply Hn; reflexivity]|].
        split; reflexivity.
    + intros H. inversion H; subst; simpl.
      split; [split; [discriminate | intros [Hc _]; discriminate Hc]|].
      split; [split; [discriminate
                     | intros Hn; exfalso; apply Hn; reflexivity]|].
      split; reflexivity.
  - intros e. destruct cred_exists; [|discriminate].
    destruct client as [c|e']; [discriminate|].
    destruct (is_Exception e') eqn:E; [discriminate|].
    intros H. inversion H; subst. auto.
Qed.

Lemma init_outcome_witness :
  (use_google_tts bot_google = true <->
   true = true /\ exists c, Ok tt = Ok c)
  /\ (use_google_tts bot_google = true <-> tts_client bot_google <> None)
  /\ feedback_db bot_google = [] /\ emotion_log bot_google = [].
Proof.
  apply (proj1 (init_outcome true (Ok tt)) bot_google). reflexivity.
Defined.

(** ** Response selection, continued *)

Lemma dict_get_raise {V} (d : list (str * V)) (key : str) (e : exn) :
  dict_get d key = Raise e -> e = KeyError key /\ ~ In key (map fst d).
Proof.
  induction d as [|[k v] d IH]; simpl.
  - intros H. inversion H. split; [reflexivity | tauto].
  - destruct (str_eqb k key) eqn:E; [discriminate|].
    intros H. destruct (IH H) as [He Hn]. split; [exact He|].
    apply str_eqb_neq in E. intros [K|K]; [exact (E K) | exact (Hn K)].
Qed.

(** X5: the reply depends on the emotion only, never on the text; whenever
    a reply is returned the emotion is a key of [responses] and the reply is
    the non-empty first candidate of an entry, never a later candidate; the
    only error is [KeyError] for the emotion, raised exactly for non-keys. *)
Theorem generate_response_outcomes (text emotion : str) :
  (forall text', generate_response text' emotion
                 = generate_response text emotion)
  /\ (forall reply,
        generate_response text emotion = Ok reply ->
        In emotion (map fst responses) /\ In reply first_candidates /\
        reply <> [] /\ ~ In reply later_candidates)
  /\ (forall e,
        generate_response text emotion = Raise e ->
        e = KeyError emotion /\ ~ In emotion (map fst responses)).
Proof.
  split; [reflexivity|]. split.
  - intros reply H.
    pose proof (generate_response_ok_key text emotion reply H) as Hkey.
    split; [exact Hkey|].
    simpl in Hkey. destruct Hkey as [K|[K|[K|[]]]]; subst emotion;
      vm_compute in H; inversion H; subst reply;
      (split; [vm_compute; tauto|]);
      (split; [discriminate|]);
      vm_compute; intros [E|[E|[E|[]]]]; discriminate E.
  - intros e. unfold generate_response.
    destruct (dict_get responses emotion) as [c|e0] eqn:D.
    + pose proof (dict_get_ok_key responses emotion c D) as Hkey.
      simpl in Hkey. destruct Hkey as [K|[K|[K|[]]]]; subst emotion;
        vm_compute in D; inversion D; subst c; discriminate.
    + intros H. inversion H; subst e0.
      exact (dict_get_raise responses emotion e D).
Qed.

Lemma generate_response_outcomes_witness :
  (In (u "negative") (map fst responses)
   /\ In (u "أنا آسف لسماع ذلك. هل تريد التحدث أكثر؟") first_candidates
   /\ u "أنا آسف لسماع ذلك. هل تريد التحدث أكثر؟" <> []
   /\ ~ In (u "أنا آسف لسماع ذلك. هل تريد التحدث أكثر؟") later_candidates)
  /\ (KeyError (u "LABEL_1") = KeyError (u "LABEL_1")
      /\ ~ In (u "LABEL_1") (map fst responses)).
Proof.
  split.
  - apply (proj1 (proj2 (generate_response_outcomes (u "مرحبا")
                           (u "negative")))).
    reflexivity.
  - apply (proj2 (proj2 (generate_response_outcomes (u "مرحبا")
                           (u "LABEL_1")))).
    reflexivity.
Defined.

(** ** Feedback, continued *)

(** X6: a series of [save_feedback] calls appends one record per call, in
    call order, each with the clock reading of its call; nothing is merged,
    dropped or checked, so equal calls give equal records side by side. *)
Theorem save_feedback_appends_in_order
  (calls : list (Env * (str * str * str))) (w : World) :
  feedback_db
    (bot (run_ops
            (map (fun c => Op_save_feedback (fst c) (fst (fst (snd c)))
                             (snd (fst (snd c))) (snd (snd c)))
                 calls) w))
  = feedback_db (bot w)
      ++ map (fun c => mkFeedback (datetime_now (fst c)) (fst (fst (snd c)))
                         (snd (fst (snd c))) (snd (snd c)))
             calls.
Proof.
  unfold run_ops. revert w.
  induction calls as [|c calls IH]; intros w; simpl.
  - rewrite app_nil_r. reflexivity.
  - rewrite IH. simpl. rewrite <- app_assoc. reflexivity.
Qed.

(** ** Attributes that are never assigned *)

Lemma fixed_attributes_refl (w : World) : fixed_attributes w w.
Proof. split; reflexivity. Qed.

Lemma fixed_attributes_trans (w1 w2 w3 : World) :
  fixed_attributes w1 w2 -> fixed_attributes w2 w3 -> fixed_attributes w1 w3.
Proof. intros [A1 B1] [A2 B2]. split; congruence. Qed.

(** X7: whatever methods are called and however many turns the loop runs,
    the stored client and [emotion_log] stay as construction left them:
    [emotion_log] is never written, and a client is never created or
    dropped after [__init__]. *)
Theorem client_and_emotion_log_fixed (w : World) :
  (forall ops, fixed_attributes w (run_ops ops w))
  /\ (forall script, fixed_attributes w (snd (fst (main script w)))).
Proof.
  split.
  - intros ops. apply run_ops_related.
    + exact fixed_attributes_refl.
    + exact fixed_attributes_trans.
    + intros c w0. split; reflexivity.
    + intros w0. split; reflexivity.
    + intros r w0. split; reflexivity.
  - intros script.
    assert (H : fixed_attributes w (state_of (while_true script w))).
    { apply preserves_while_true.
      + exact fixed_attributes_refl.
      + exact fixed_attributes_trans.
      + intros c w0. split; reflexivity.
      + intros w0. split; reflexivity.
      + intros r w0. split; reflexivity. }
    unfold main, state_of in *.
    destruct (while_true script w) as [[[st|e] w1] o1]; simpl in *;
      [exact H|]. destruct e; exact H.
Qed.

(** ** Recording *)

(** X8: [record_audio] leaves the object as it is; it returns ["input.wav"]
    exactly when recording and writing both succeed, [None] exactly when the
    first of them to fail raised an [Exception], and it lets nothing but
    [KeyboardInterrupt] escape. *)
Theorem record_audio_outcomes (env : Env) (w : World) :
  state_of (record_audio env w) = w
  /\ (result_of (record_audio env w) = Ok (Some input_wav) <-> capture_ok env)
  /\ (forall path, result_of (record_audio env w) = Ok (Some path) ->
                   path = input_wav)
  /\ (result_of (record_audio env w) = Ok None <->
      exists e, is_Exception e = true /\
                (sd_rec env = Raise e \/
                 (sd_rec env = Ok tt /\ sf_write env = Raise e)))
  /\ (forall e, result_of (record_audio env w) = Raise e ->
                e = KeyboardInterrupt).
Proof.
  unfold capture_ok, record_audio, try_except_Exception, bind, call, print, ret.
  destruct (sd_rec env) as [[]|e1]; simpl.
  - destruct (sf_write env) as [[]|e2]; simpl.
    + split; [reflexivity|]. split; [tauto|].
      split; [intros p H; inversion H; reflexivity|].
      split; [|discriminate].
      split; [discriminate|].
      intros [e [_ [H|[_ H]]]]; discriminate H.
    + destruct (is_Exception e2) eqn:E2; simpl.
      * split; [reflexivity|].
        split; [split; [discriminate | intros [_ H]; discriminate H]|].
        split; [discriminate|].
        split; [|discriminate].
        split; [|reflexivity].
        intros _. exists e2. split; [exact E2 | right; split; reflexivity].
      * split; [reflexivity|].
        split; [split; [discriminate | intros [_ H]; discriminate H]|].
        split; [discriminate|].
        split.
        -- split; [discriminate|].
           intros [e [He [H|[_ H]]]]; [discriminate H|].
           inversion H; subst. congruence.
        -- intros e H. inversion H; subst.
           destruct e; try discriminate E2. reflexivity.
  - destruct (is_Exception e1) eqn:E1; simpl.
    + split; [reflexivity|].
      split; [split; [discriminate | intros [H _]; discriminate H]|].
      split; [discriminate|].
      split; [|discriminate].
      split; [|reflexivity].
      intros _. exists e1. split; [exact E1 | left; reflexivity].
    + split; [reflexivity|].
      split; [split; [discriminate | intros [H _]; discriminate H]|].
      split; [discriminate|].
      split.
      * split; [discriminate|].
        intros [e [He [H|[H _]]]]; [|discriminate H].
        inversion H; subst. congruence.
      * intros e H. inversion H; subst.
        destruct e; try discriminate E1. reflexivity.
Qed.

Lemma record_audio_outcomes_witness :
  result_of (record_audio (env_ok (u "مرحبا") (u "neutral"))
                          (mkWorld bot_fallback []))
  = Ok (Some input_wav)
  /\ result_of (record_audio (env_no_mic (u "neutral"))
                             (mkWorld bot_fallback []))
     = Ok None.
Proof.
  split.
  - apply (proj2 (proj1 (proj2 (record_audio_outcomes
                                  (env_ok (u "مرحبا") (u "neutral"))
                                  (mkWorld bot_fallback []))))).
    split; reflexivity.
  - apply (proj2 (proj1 (proj2 (proj2 (proj2 (record_audio_outcomes
                                  (env_no_mic (u "neutral"))
                                  (mkWorld bot_fallback []))))))).
    exists OtherError. split; [reflexivity | left; reflexivity].
Defined.

(** ** Synthesis, continued *)

(** X9: [text_to_speech] returns ["response.mp3"] or [None] and lets nothing
    but [KeyboardInterrupt] escape; [None] means gTTS raised an [Exception];
    the only change it can make to the object is clearing the flag.  When the
    Google call succeeds the result is ["response.mp3"], the object is
    unchanged and gTTS is not touched.  When the Google call is interrupted
    the interruption goes up and the flag stays set. *)
Theorem text_to_speech_outcomes (env : Env) (text emotion : str) (w : World) :
  (result_of (text_to_speech env text emotion w) = Ok (Some response_mp3)
   \/ result_of (text_to_speech env text emotion w) = Ok None
   \/ result_of (text_to_speech env text emotion w) = Raise KeyboardInterrupt)
  /\ (result_of (text_to_speech env text emotion w) = Ok None ->
      exists e, gtts_save env = Raise e /\ is_Exception e = true)
  /\ (state_of (text_to_speech env text emotion w) = w
      \/ state_of (text_to_speech env text emotion w)
         = set_use_google_tts false w)
  /\ (use_google_tts (bot w) = true -> tts_client (bot w) <> None ->
      synthesize_speech env = Ok tt ->
      text_to_speech env text emotion w
      = (Ok (Some response_mp3), w,
         [Synthesize_speech text (voice_name emotion)
            (speaking_rate_of emotion) (pitch_of emotion)]))
  /\ (use_google_tts (bot w) = true -> tts_client (bot w) <> None ->
      synthesize_speech env = Raise KeyboardInterrupt ->
      result_of (text_to_speech env text emotion w) = Raise KeyboardInterrupt
      /\ state_of (text_to_speech env text emotion w) = w).
Proof.
  assert (Hfb : forall w0,
             (result_of (fallback_tts env text w0) = Ok (Some response_mp3)
              \/ result_of (fallback_tts env text w0) = Ok None
              \/ result_of (fallback_tts env text w0) = Raise KeyboardInterrupt)
             /\ (result_of (fallback_tts env text w0) = Ok None ->
                 exists e, gtts_save env = Raise e /\ is_Exception e = true)
             /\ state_of (fallback_tts env text w0) = w0).
  { intros w0.
    unfold fallback_tts, try_except_Exception, bind, call, print, ret.
    destruct (gtts_save env) as [[]|e]; simpl.
    - split; [left; reflexivity|]. split; [discriminate | reflexivity].
    - destruct (is_Exception e) eqn:E; simpl.
      + split; [right; left; reflexivity|].
        split; [intros _; exists e; split; [reflexivity | exact E]
               | reflexivity].
      + destruct e; try discriminate E.
        split; [right; right; reflexivity|].
        split; [discriminate | reflexivity]. }
  unfold text_to_speech, bind, get_bot.
  destruct (use_google_tts (bot w)) eqn:Hf;
    [destruct (tts_client (bot w)) as [c|] eqn:Hc|]; simpl.
  - unfold try_except_Exception, bind, call, print, modify, ret.
    destruct (synthesize_speech env) as [[]|e]; simpl.
    + split; [left; reflexivity|]. split; [discriminate|].
      split; [left; reflexivity|]. split; [reflexivity|].
      intros _ _ H. discriminate H.
    + destruct (is_Exception e) eqn:E; simpl.
      * destruct (Hfb (set_use_google_tts false w)) as [H1 [H2 H3]].
        unfold result_of, state_of in *.
        destruct (fallback_tts env text (set_use_google_tts false w))
          as [[r w'] o]. simpl in *.
        split; [exact H1|]. split; [exact H2|].
        split; [right; exact H3|].
        split; [intros _ _ H; discriminate H|].
        intros _ _ H. inversion H; subst. discriminate E.
      * destruct e; try discriminate E.
        split; [right; right; reflexivity|]. split; [discriminate|].
        split; [left; reflexivity|].
        split; [intros _ _ H; discriminate H|].
        intros _ _ _. split; reflexivity.
  - destruct (Hfb w) as [H1 [H2 H3]]. unfold result_of, state_of in *.
    destruct (fallback_tts env text w) as [[r w'] o]. simpl in *.
    split; [exact H1|]. split; [exact H2|]. split; [left; exact H3|].
    split; intros _ Hn; exfalso; apply Hn; reflexivity.
  - destruct (Hfb w) as [H1 [H2 H3]]. unfold result_of, state_of in *.
    destruct (fallback_tts env text w) as [[r w'] o]. simpl in *.
    split; [exact H1|]. split; [exact H2|]. split; [left; exact H3|].
    split; intros Ht; discriminate Ht.
Qed.

Lemma text_to_speech_outcomes_witness :
  text_to_speech (env_ok (u "مرحبا") (u "positive"))
                 (u "أمر رائع! هل تريد المزيد من المساعدة؟") (u "positive")
                 (mkWorld bot_google [])
  = (Ok (Some response_mp3), mkWorld bot_google [],
     [Synthesize_speech (u "أمر رائع! هل تريد المزيد من المساعدة؟")
        (u "ar-XA-Standard-B") (1 # 1) 0]).
Proof.
  apply (proj1 (proj2 (proj2 (proj2 (text_to_speech_outcomes
           (env_ok (u "مرحبا") (u "positive"))
           (u "أمر رائع! هل تريد المزيد من المساعدة؟") (u "positive")
           (mkWorld bot_google [])))))).
  - reflexivity.
  - discriminate.
  - reflexivity.
Defined.

(** ** When the flag is cleared *)

Lemma flag_step_refl (env : Env) (w : World) : flag_step env w w.
Proof. split; [reflexivity | left; reflexivity]. Qed.

Lemma flag_step_trans (env : Env) (w1 w2 w3 : World) :
  flag_step env w1 w2 -> flag_step env w2 w3 -> flag_step env w1 w3.
Proof.
  intros [C1 F1] [C2 F2]. split; [congruence|].
  destruct F1 as [F1 | (N1 & T1 & Z1 & E1)].
  - destruct F2 as [F2 | (N2 & T2 & Z2 & E2)]; [left; congruence|].
    right. repeat split; auto; congruence.
  - right. repeat split; auto.
    destruct F2 as [F2 | (N2 & T2 & Z2 & E2)]; congruence.
Qed.

Lemma flag_step_console (env : Env) (c : list console_event) (w : World) :
  flag_step env w (set_console c w).
Proof. split; [reflexivity | left; reflexivity]. Qed.

Lemma flag_step_append (env : Env) (r : FeedbackRecord) (w : World) :
  flag_step env w (append_feedback r w).
Proof. split; [reflexivity | left; reflexivity]. Qed.

Lemma flag_step_text_to_speech (env : Env) (text emotion : str) :
  preserves (flag_step env) (text_to_speech env text emotion).
Proof.
  intros w. unfold text_to_speech, bind, get_bot.
  assert (Hfb : forall w0, state_of (fallback_tts env text w0) = w0).
  { intros w0.
    unfold fallback_tts, try_except_Exception, bind, call, print, ret.
    destruct (gtts_save env) as [[]|e]; simpl; [reflexivity|].
    destruct (is_Exception e); reflexivity. }
  destruct (use_google_tts (bot w)) eqn:Hf;
    [destruct (tts_client (bot w)) as [c|] eqn:Hc|]; simpl.
  - unfold try_except_Exception, bind, call, print, modify, ret.
    destruct (synthesize_speech env) as [[]|e] eqn:Hs; simpl;
      [apply flag_step_refl|].
    destruct (is_Exception e) eqn:E; simpl; [|apply flag_step_refl].
    specialize (Hfb (set_use_google_tts false w)). unfold state_of in *.
    destruct (fallback_tts env text (set_use_google_tts false w))
      as [[r w'] o]. simpl in *. subst w'.
    split; [reflexivity|]. right. simpl.
    split; [congruence|]. split; [exact Hf|]. split; [reflexivity|].
    exists e. split; [exact Hs | exact E].
  - specialize (Hfb w). unfold state_of in *.
    destruct (fallback_tts env text w) as [[r w'] o]. simpl in *. subst w'.
    apply flag_step_refl.
  - specialize (Hfb w). unfold state_of in *.
    destruct (fallback_tts env text w) as [[r w'] o]. simpl in *. subst w'.
    apply flag_step_refl.
Qed.

Ltac flag_side env :=
  first [ exact (flag_step_refl env) | exact (flag_step_trans env)
        | exact (flag_step_console env) | exact (flag_step_append env) ].

Ltac flag_go env :=
  repeat first
    [ flag_side env
    | apply flag_step_text_to_speech
    | apply preserves_turn_acquire
    | apply preserves_turn_feedback
    | apply preserves_bind
    | match goal with
      | |- forall _, _ => intro
      | |- preserves _ (match ?x with _ => _ end) => destruct x
      end
    | progress unfold sf_read_file ].

Lemma flag_step_loop_body (env : Env) :
  preserves (flag_step env) (loop_body env).
Proof. unfold loop_body, turn_respond. flag_go env. Qed.

(** X10: the flag is cleared by nothing but a failed Google call: if a run
    starts with the flag set and ends with it cleared, a client was stored
    and in one of the turns run the Google call raised an [Exception]. *)
Theorem flag_cleared_only_by_google_failure (script : list Env) (w : World) :
  use_google_tts (bot w) = true ->
  use_google_tts (bot (snd (fst (main script w)))) = false ->
  tts_client (bot w) <> None
  /\ exists env e,
      In env script /\ synthesize_speech env = Raise e /\
      is_Exception e = true.
Proof.
  assert (Hloop : forall script w,
             use_google_tts (bot w) = true ->
             use_google_tts (bot (state_of (while_true script w))) = false ->
             tts_client (bot w) <> None
             /\ exists env e,
                 In env script /\ synthesize_speech env = Raise e /\
                 is_Exception e = true).
  { clear. induction script as [|env rest IH]; intros w Hset Hclr; simpl in *.
    - unfold state_of in Hclr. simpl in Hclr. congruence.
    - unfold bind in Hclr.
      pose proof (flag_step_loop_body env w) as [Hc Hstep].
      unfold state_of in *.
      destruct (loop_body env w) as [[r w1] o1]. simpl in *.
      assert (Hdone : use_google_tts (bot w1) = false ->
                      tts_client (bot w) <> None
                      /\ exists env0 e,
                          (env = env0 \/ In env0 rest) /\
                          synthesize_speech env0 = Raise e /\
                          is_Exception e = true).
      { intros Hw1. destruct Hstep as [Hsame | (Hn & _ & _ & e & He & Hx)];
          [congruence|].
        split; [exact Hn|]. exists env, e. auto. }
      destruct r as [[|]|e]; simpl in *; try (apply Hdone; exact Hclr).
      destruct (use_google_tts (bot w1)) eqn:Hw1; [|apply Hdone; reflexivity].
      destruct (while_true rest w1) as [[r2 w2] o2] eqn:Hrest. simpl in *.
      specialize (IH w1 Hw1). rewrite Hrest in IH. simpl in IH.
      destruct (IH Hclr) as [Hn (env0 & e & Hin & He & Hx)].
      split; [congruence|]. exists env0, e. auto. }
  intros Hset Hclr. apply (Hloop script w Hset).
  unfold main, state_of in *.
  destruct (while_true script w) as [[[st|e] w1] o1]; simpl in *;
    [exact Hclr|]. destruct e; exact Hclr.
Qed.

Lemma flag_cleared_only_by_google_failure_witness :
  tts_client (bot (mkWorld bot_google [Line (u "y")])) <> None
  /\ exists env e,
      In env [env_google_down (u "مرحبا") (u "neutral")] /\
      synthesize_speech env = Raise e /\ is_Exception e = true.
Proof.
  apply (flag_cleared_only_by_google_failure
           [env_google_down (u "مرحبا") (u "neutral")]
           (mkWorld bot_google [Line (u "y")])); reflexivity.
Defined.

(** X11: an object built without credentials, or whose client could not be
    built, never calls Google: no run of the loop on it sends a request. *)
Theorem no_credentials_no_google
  (cred_exists : bool) (client : res unit) (b : MKAI)
  (script : list Env) (entries : list console_event) :
  init cred_exists client = Ok b ->
  cred_exists = false \/ (exists e, client = Raise e) ->
  calls_google (snd (main script (mkWorld b entries))) = false.
Proof.
  intros Hinit Hwhy.
  assert (Hflag : use_google_tts b = false).
  { unfold init in Hinit. destruct Hwhy as [-> | [e ->]].
    - inversion Hinit. reflexivity.
    - destruct cred_exists; [|inversion Hinit; reflexivity].
      destruct (is_Exception e); inversion Hinit. reflexivity. }
  destruct (skips_while_true script (mkWorld b entries) Hflag) as [_ Hq].
  unfold main, actions_of in *.
  destruct (while_true script (mkWorld b entries)) as [[[st|e] w1] o1];
    simpl in *; [exact Hq|].
  destruct e; try exact Hq.
  cbn [snd]. rewrite calls_google_app, Hq. reflexivity.
Qed.

Lemma no_credentials_no_google_witness :
  calls_google
    (snd (main [env_ok (u "مرحبا") (u "positive")]
               (mkWorld bot_fallback [Line (u "y")])))
  = false.
Proof.
  apply (no_credentials_no_google false (Ok tt) bot_fallback
           [env_ok (u "مرحبا") (u "positive")] [Line (u "y")]).
  - reflexivity.
  - left. reflexivity.
Defined.

(** ** Text entry, continued *)

Lemma get_text_input_from_cases (entries : list console_event) :
  match get_text_input_from entries with
  | (Ok (Some text, d), rest, _) =>
      d = Some msa /\ forallb isspace text = false /\
      str_lower text <> exit_word /\
      exists blanks,
        entries = blanks ++ Line text :: rest /\
        forallb is_blank_line blanks = true
  | (Ok (None, d), rest, _) =>
      d = None /\
      exists blanks ev,
        entries = blanks ++ ev :: rest /\
        forallb is_blank_line blanks = true /\
        (ev = CtrlC \/ exists text, ev = Line text /\ str_lower text = exit_word)
  | (Raise e, rest, _) =>
      e = EOFError /\ forallb is_blank_line entries = true /\ rest = []
  end.
Proof.
  induction entries as [|[text|] entries IH]; simpl.
  - auto.
  - destruct (str_eqb (str_lower text) exit_word) eqn:E.
    + split; [reflexivity|]. exists [], (Line text).
      split; [reflexivity|]. split; [reflexivity|].
      right. exists text. split; [reflexivity | apply str_eqb_eq; exact E].
    + destruct (truthy (strip text)) eqn:T.
      * split; [reflexivity|]. split; [apply strip_truthy; exact T|].
        split; [apply str_eqb_neq; exact E|].
        exists []. split; reflexivity.
      * apply strip_falsy in T.
        destruct (get_text_input_from entries) as [[[[[t|] d]|e] rest] o].
        -- destruct IH as (Hd & Hb & Hx & blanks & Heq & Hbl).
           repeat split; auto. exists (Line text :: blanks).
           simpl. rewrite Heq, T, Hbl. split; reflexivity.
        -- destruct IH as (Hd & blanks & ev & Heq & Hbl & Hev).
           split; [exact Hd|]. exists (Line text :: blanks), ev.
           simpl. rewrite Heq, T, Hbl. repeat split; auto.
        -- destruct IH as (He & Hbl & Hr). simpl. rewrite T, Hbl. auto.
  - split; [reflexivity|]. exists [], CtrlC.
    split; [reflexivity|]. split; [reflexivity|]. left. reflexivity.
Qed.

(** X12: what [get_text_input] can return, for any console.  A returned
    text is the first entry that is not blank; it is not an exit spelling
    and comes with dialect ['msa'], whatever keywords it contains.  The exit
    value is returned when the first entry that is not blank is an exit
    spelling or Ctrl-C.  If the console ends after blank entries only,
    [EOFError] escapes; nothing else ever does.  The object is not touched
    and exactly the entries read are consumed. *)
Theorem get_text_input_returns (w : World) :
  (forall text d,
      result_of (get_text_input w) = Ok (Some text, d) ->
      d = Some msa /\ forallb isspace text = false /\
      str_lower text <> exit_word /\
      exists blanks,
        console w
        = blanks ++ Line text :: console (state_of (get_text_input w)) /\
        forallb is_blank_line blanks = true)
  /\ (forall d,
      result_of (get_text_input w) = Ok (None, d) ->
      d = None /\
      exists blanks ev,
        console w = blanks ++ ev :: console (state_of (get_text_input w)) /\
        forallb is_blank_line blanks = true /\
        (ev = CtrlC \/ exists text, ev = Line text /\ str_lower text = exit_word))
  /\ (forall e,
      result_of (get_text_input w) = Raise e ->
      e = EOFError /\ forallb is_blank_line (console w) = true /\
      console (state_of (get_text_input w)) = [])
  /\ bot (state_of (get_text_input w)) = bot w.
Proof.
  pose proof (get_text_input_from_cases (console w)) as H.
  unfold get_text_input, result_of, state_of.
  destruct (get_text_input_from (console w)) as [[[[[t|] d]|e] rest] o];
    simpl in *.
  - split; [intros text d0 E; inversion E; subst; exact H|].
    split; [intros d0 E; discriminate E|].
    split; [intros e E; discriminate E | reflexivity].
  - split; [intros text d0 E; discriminate E|].
    split; [intros d0 E; inversion E; subst; exact H|].
    split; [intros e E; discriminate E | reflexivity].
  - split; [intros text d0 E; discriminate E|].
    split; [intros d0 E; discriminate E|].
    split; [intros e0 E; inversion E; subst; exact H | reflexivity].
Qed.

Lemma get_text_input_returns_witness :
  Some msa = Some msa /\ forallb isspace (u "عاوز اروح") = false /\
  str_lower (u "عاوز اروح") <> exit_word /\
  exists blanks,
    [Line []; Line (u "عاوز اروح"); Line (u "y")]
    = blanks ++ Line (u "عاوز اروح")
        :: console (state_of (get_text_input
             (mkWorld bot_fallback
                [Line []; Line (u "عاوز اروح"); Line (u "y")]))) /\
    forallb is_blank_line blanks = true.
Proof.
  apply (proj1 (get_text_input_returns
                  (mkWorld bot_fallback
                     [Line []; Line (u "عاوز اروح"); Line (u "y")]))
               (u "عاوز اروح") (Some msa)).
  reflexivity.
Defined.

Lemma get_text_input_from_skip (blanks rest : list console_event) :
  forallb is_blank_line blanks = true ->
  get_text_input_from (blanks ++ rest)
  = (fst (fst (get_text_input_from rest)),
     snd (fst (get_text_input_from rest)),
     blank_notices (List.length blanks) ++ snd (get_text_input_from rest)).
Proof.
  induction blanks as [|[text|] blanks IH]; simpl.
  - intros _. destruct (get_text_input_from rest) as [[r c] o]. reflexivity.
  - intros H. apply andb_true_iff in H. destruct H as [Hb Hrest].
    rewrite (blank_not_exit text Hb).
    apply strip_falsy in Hb. rewrite Hb.
    rewrite (IH Hrest). reflexivity.
  - discriminate.
Qed.

(** X13: any number of blank entries is skipped, with one notice each, and
    [get_text_input] then behaves as on the rest of the console; when the
    console holds nothing but blank entries the call ends in [EOFError]. *)
Theorem get_text_input_skips_blanks
  (w : World) (blanks rest : list console_event) :
  console w = blanks ++ rest ->
  forallb is_blank_line blanks = true ->
  get_text_input w
  = (result_of (get_text_input (set_console rest w)),
     state_of (get_text_input (set_console rest w)),
     blank_notices (List.length blanks)
       ++ actions_of (get_text_input (set_console rest w)))
  /\ (rest = [] -> result_of (get_text_input w) = Raise EOFError).
Proof.
  intros Hc Hb.
  assert (H : get_text_input w
              = (result_of (get_text_input (set_console rest w)),
                 state_of (get_text_input (set_console rest w)),
                 blank_notices (List.length blanks)
                   ++ actions_of (get_text_input (set_console rest w)))).
  { unfold get_text_input, result_of, state_of, actions_of.
    rewrite Hc, (get_text_input_from_skip blanks rest Hb). simpl.
    destruct (get_text_input_from rest) as [[r c] o]. reflexivity. }
  split; [exact H|].
  intros ->. rewrite H. reflexivity.
Qed.

Lemma get_text_input_skips_blanks_witness :
  result_of (get_text_input (mkWorld bot_fallback [Line []; Line (u " ")]))
  = Raise EOFError.
Proof.
  apply (proj2 (get_text_input_skips_blanks
                  (mkWorld bot_fallback [Line []; Line (u " ")])
                  [Line []; Line (u " ")] [] eq_refl eq_refl)).
  reflexivity.
Defined.

Lemma lower_char_letter (c lo : N) :
  (97 <= lo)%N -> (lo <= 122)%N ->
  lower_char c = lo <-> (c = lo \/ c = lo - 32)%N.
Proof.
  intros H1 H2. unfold lower_char.
  destruct ((65 <=? c) && (c <=? 90))%N eqn:E.
  - apply andb_true_iff in E. destruct E as [Ea Eb].
    apply N.leb_le in Ea, Eb. split; [intros H; right; lia|].
    intros [H|H]; lia.
  - apply andb_false_iff in E. split; [intros H; left; exact H|].
    intros [H|H]; [exact H|]. exfalso.
    destruct E as [E|E]; apply N.leb_gt in E; lia.
Qed.

(** X14: an entry that is not blank makes [get_text_input] return the exit
    value exactly when it is one of the sixteen spellings of "exit" in upper
    and lower case, with nothing before or after. *)
Theorem exit_spellings (w : World) (text : str) (rest : list console_event) :
  console w = Line text :: rest ->
  forallb isspace text = false ->
  (result_of (get_text_input w) = Ok (None, None) <->
   exists c1 c2 c3 c4,
     text = [c1; c2; c3; c4] /\
     (c1 = 101 \/ c1 = 69)%N /\ (c2 = 120 \/ c2 = 88)%N /\
     (c3 = 105 \/ c3 = 73)%N /\ (c4 = 116 \/ c4 = 84)%N).
Proof.
  intros Hc Hnb.
  assert (Hres : result_of (get_text_input w) = Ok (None, None) <->
                 str_lower text = exit_word).
  { unfold get_text_input, result_of. rewrite Hc. simpl.
    destruct (str_eqb (str_lower text) exit_word) eqn:E.
    - apply str_eqb_eq in E. simpl. tauto.
    - apply str_eqb_neq in E. apply strip_truthy in Hnb. rewrite Hnb. simpl.
      split; [discriminate | contradiction]. }
  rewrite Hres. unfold exit_word. split.
  - destruct text as [|c1 [|c2 [|c3 [|c4 [|c5 t]]]]]; simpl;
      try discriminate.
    intros H. injection H as H1 H2 H3 H4.
    exists c1, c2, c3, c4. split; [reflexivity|].
    apply lower_char_letter in H1, H2, H3, H4; lia.
  - intros (c1 & c2 & c3 & c4 & -> & H1 & H2 & H3 & H4). simpl.
    assert (E1 : lower_char c1 = 101%N)
      by (apply lower_char_letter; lia).
    assert (E2 : lower_char c2 = 120%N)
      by (apply lower_char_letter; lia).
    assert (E3 : lower_char c3 = 105%N)
      by (apply lower_char_letter; lia).
    assert (E4 : lower_char c4 = 116%N)
      by (apply lower_char_letter; lia).
    rewrite E1, E2, E3, E4. reflexivity.
Qed.

Lemma exit_spellings_witness :
  result_of (get_text_input (mkWorld bot_fallback [Line (u "eXiT")]))
  = Ok (None, None).
Proof.
  apply (proj2 (exit_spellings (mkWorld bot_fallback [Line (u "eXiT")])
                  (u "eXiT") [] eq_refl eq_refl)).
  exists 101%N, 88%N, 105%N, 84%N.
  split; [reflexivity|].
  split; [left; reflexivity|]. split; [right; reflexivity|].
  split; [left; reflexivity | right; reflexivity].
Defined.

(** ** Failures inside a turn *)

(** X15: the feedback prompt can fail only by [KeyboardInterrupt] or
    [EOFError], and then nothing is saved: in particular a rating other than
    "y" followed by Ctrl-C at the correction prompt leaves no record. *)
Theorem turn_feedback_failures (env : Env) (text response : str) (w : World) :
  (forall e,
      result_of (turn_feedback env text response w) = Raise e ->
      (e = KeyboardInterrupt \/ e = EOFError) /\
      bot (state_of (turn_feedback env text response w)) = bot w)
  /\ (forall entry rest,
      console w = Line entry :: CtrlC :: rest ->
      str_lower entry <> yes_word ->
      turn_feedback env text response w
      = (Raise KeyboardInterrupt, set_console rest w,
         [Input Prompt_was_good; Input Prompt_correct_response])).
Proof.
  split.
  - intros e. unfold turn_feedback, bind, input, save_feedback, modify, ret,
      result_of, state_of.
    destruct (console w) as [|[entry|] rest]; simpl.
    + intros H. inversion H. auto.
    + destruct (negb (str_eqb (str_lower entry) yes_word)); simpl;
        [|discriminate].
      destruct rest as [|[correction|] rest']; simpl.
      * intros H. inversion H. auto.
      * discriminate.
      * intros H. inversion H. auto.
    + intros H. inversion H. auto.
  - intros entry rest Hc Hn.
    unfold turn_feedback, bind, input. rewrite Hc. simpl.
    apply str_eqb_neq in Hn. rewrite Hn. reflexivity.
Qed.

Lemma turn_feedback_failures_witness :
  turn_feedback (env_ok (u "مرحبا") (u "neutral")) (u "مرحبا")
                (u "فهمت. ماذا تريد أن تفعل الآن؟")
                (mkWorld bot_fallback [Line (u "n"); CtrlC])
  = (Raise KeyboardInterrupt, mkWorld bot_fallback [],
     [Input Prompt_was_good; Input Prompt_correct_response]).
Proof.
  apply (proj2 (turn_feedback_failures
                  (env_ok (u "مرحبا") (u "neutral")) (u "مرحبا")
                  (u "فهمت. ماذا تريد أن تفعل الآن؟")
                  (mkWorld bot_fallback [Line (u "n"); CtrlC]))
               (u "n") []).
  - reflexivity.
  - vm_compute. discriminate.
Defined.

(** X16: when the classifier returns a label that is not a key of
    [responses], the run ends with [KeyError] for that label right after the
    emotion is printed: nothing is synthesized or played, no feedback is
    asked, and the turns that follow are not run. *)
Theorem unknown_label_ends_run
  (env : Env) (script : list Env) (w w1 : World) (oa : list action)
  (text label : str) (confidence : Q) :
  turn_acquire env w = (Ok (Some text), w1, oa) ->
  sentiment_analyzer env = Ok (label, confidence) ->
  ~ In label (map fst responses) ->
  main (env :: script) w
  = (Crashed (KeyError label), w1,
     oa ++ [Classify text; Stdout (Msg_detected_emotion label confidence)]).
Proof.
  intros Ha Hs Hk.
  assert (Hl : loop_body env w
               = (Raise (KeyError label), w1,
                  oa ++ [Classify text;
                         Stdout (Msg_detected_emotion label confidence)])).
  { unfold loop_body, bind. rewrite Ha.
    unfold turn_respond, analyze_emotion, bind, call, print.
    rewrite Hs. simpl. unfold generate_response.
    rewrite (dict_get_missing responses label Hk). reflexivity. }
  unfold main. simpl. unfold bind at 1. rewrite Hl. reflexivity.
Qed.

Lemma unknown_label_ends_run_witness :
  fst (fst (main [env_ok (u "مرحبا") (u "LABEL_1");
                  env_ok (u "مرحبا") (u "neutral")]
                 (mkWorld bot_fallback [Line (u "y")])))
  = Crashed (KeyError (u "LABEL_1")).
Proof.
  refine (f_equal (fun x => fst (fst x))
            (unknown_label_ends_run
               (env_ok (u "مرحبا") (u "LABEL_1"))
               [env_ok (u "مرحبا") (u "neutral")]
               (mkWorld bot_fallback [Line (u "y")])
               (mkWorld bot_fallback [Line (u "y")]) _
               (u "مرحبا") (u "LABEL_1") (9 # 10) eq_refl eq_refl _)).
  simpl. intros [H|[H|[H|[]]]]; discriminate H.
Defined.

(** X17: a turn has no guard of its own: any exception that leaves an
    iteration ends the run there, as Interrupted for [KeyboardInterrupt] and
    as an uncaught error otherwise, and later turns are not run.  So an
    exception of Whisper, once audio is recorded, or of the classifier ends
    the run. *)
Theorem collaborator_failure_ends_run
  (env : Env) (script : list Env) (w : World) (e : exn) :
  (result_of (loop_body env w) = Raise e ->
   fst (fst (main (env :: script) w)) = status_of_exn e /\
   snd (fst (main (env :: script) w)) = state_of (loop_body env w))
  /\ (capture_ok env -> transcribe env = Raise e ->
      result_of (loop_body env w) = Raise e)
  /\ (forall text w1 oa,
        turn_acquire env w = (Ok (Some text), w1, oa) ->
        sentiment_analyzer env = Raise e ->
        result_of (loop_body env w) = Raise e).
Proof.
  split; [|split].
  - unfold main. simpl. unfold bind, result_of, state_of.
    destruct (loop_body env w) as [[r w1] o1]. simpl.
    intros ->. destruct e; split; reflexivity.
  - intros Hc Ht. pose proof (turn_acquire_speech env w Hc) as Ha.
    pose proof (loop_body_flow env w) as Hl.
    rewrite Ht in Ha. rewrite Ha in Hl. exact Hl.
  - intros text w1 oa Ha Hs.
    unfold loop_body, bind, result_of. rewrite Ha.
    unfold turn_respond, analyze_emotion, bind, call. rewrite Hs.
    reflexivity.
Qed.

Lemma collaborator_failure_ends_run_witness :
  result_of (loop_body
               (mkEnv (Ok tt) (Ok tt) (Raise OtherError)
                      (Ok (u "neutral", 9 # 10)) (Ok tt) (Ok tt) (Ok tt)
                      (Ok tt) 0%N)
               (mkWorld bot_fallback []))
  = Raise OtherError.
Proof.
  apply (proj1 (proj2 (collaborator_failure_ends_run
                  (mkEnv (Ok tt) (Ok tt) (Raise OtherError)
                         (Ok (u "neutral", 9 # 10)) (Ok tt) (Ok tt) (Ok tt)
                         (Ok tt) 0%N)
                  [] (mkWorld bot_fallback []) OtherError))).
  - split; reflexivity.
  - reflexivity.
Defined.

(** ** Feedback over a whole run *)

Lemma loop_body_db (env : Env) (w : World) :
  feedback_db (bot (state_of (loop_body env w))) = feedback_db (bot w)
  \/ exists record,
      feedback_db (bot (state_of (loop_body env w)))
      = feedback_db (bot w) ++ [record].
Proof.
  unfold loop_body, bind.
  pose proof (db_same_turn_acquire env w) as Ha.
  unfold db_same, state_of in *.
  destruct (turn_acquire env w) as [[[[t|]|e] wa] oa]; simpl in *; auto.
  pose proof (db_same_turn_respond env t wa) as Hr.
  unfold db_same, state_of in *.
  destruct (turn_respond env t wa) as [[[r|e] wr] orr]; simpl in *;
    [|left; congruence].
  pose proof (turn_feedback_db env t r wr) as Hf.
  unfold state_of in *.
  destruct (turn_feedback env t r wr) as [[[[]|e] wf] o2]; simpl in *;
    (destruct Hf as [Hf | [c Hf]];
     [left; congruence | right; eexists; rewrite Hf, Hr, Ha; reflexivity]).
Qed.

(** X18: over a whole run the feedback list only grows at its end, by at
    most one record per turn run. *)
Theorem feedback_count_bounded (script : list Env) (w : World) :
  exists added,
    feedback_db (bot (snd (fst (main script w))))
    = feedback_db (bot w) ++ added
    /\ (List.length added <= List.length script)%nat.
Proof.
  assert (Hloop : forall script w,
             exists added,
               feedback_db (bot (state_of (while_true script w)))
               = feedback_db (bot w) ++ added
               /\ (List.length added <= List.length script)%nat).
  { clear. induction script as [|env rest IH]; intros w; simpl.
    - exists []. rewrite app_nil_r. split; [reflexivity | apply Nat.le_refl].
    - pose proof (loop_body_db env w) as Hb. unfold bind, state_of in *.
      destruct (loop_body env w) as [[r w1] o1]. simpl in *.
      assert (Hone : exists a1, feedback_db (bot w1) = feedback_db (bot w) ++ a1
                                /\ (List.length a1 <= 1)%nat).
      { destruct Hb as [Hb | [rcd Hb]].
        - exists []. rewrite app_nil_r. split; [exact Hb | auto].
        - exists [rcd]. split; [exact Hb | apply Nat.le_refl]. }
      destruct Hone as (a1 & Ha1 & Hl1).
      destruct r as [[|]|e]; simpl.
      + destruct (IH w1) as (a2 & Ha2 & Hl2).
        destruct (while_true rest w1) as [[r2 w2] o2]. simpl in *.
        exists (a1 ++ a2). rewrite Ha2, Ha1, app_assoc.
        split; [reflexivity|]. rewrite length_app. lia.
      + exists a1. split; [exact Ha1 | lia].
      + exists a1. split; [exact Ha1 | lia]. }
  destruct (Hloop script w) as (added & Ha & Hl).
  exists added. split; [|exact Hl].
  unfold main, state_of in *.
  destruct (while_true script w) as [[[st|e] w1] o1]; simpl in *;
    [exact Ha|]. destruct e; exact Ha.
Qed.

(** ** What a turn does to the outside world *)

Lemma yields_unit {A} (r : res A) (o : list action)
      (Q : res A -> Prop) (P : action -> Prop) :
  Q r -> Forall P o -> yields (fun w => (r, w, o)) Q P.
Proof. intros Hq Hp w. split; assumption. Qed.

Lemma yields_bind {A B} {m : M A} {k : A -> M B}
      {Q1 : res A -> Prop} {Q2 : res B -> Prop} {P : action -> Prop} :
  yields m Q1 P ->
  (forall a, Q1 (Ok a) -> yields (k a) Q2 P) ->
  (forall e, Q1 (Raise e) -> Q2 (Raise e)) ->
  yields (bind m k) Q2 P.
Proof.
  intros Hm Hk He w. unfold bind. destruct (Hm w) as [Hq Hp].
  unfold result_of, actions_of in *.
  destruct (m w) as [[[a|e] w1] o1]; simpl in *.
  - destruct (Hk a Hq w1) as [Hq2 Hp2]. unfold result_of, actions_of in *.
    destruct (k a w1) as [[r w2] o2]. simpl in *.
    split; [exact Hq2 | apply Forall_app; split; assumption].
  - split; [apply He; exact Hq | exact Hp].
Qed.

Lemma yields_weaken {A} (m : M A) (Q Q' : res A -> Prop)
      (P P' : action -> Prop) :
  yields m Q P -> (forall r, Q r -> Q' r) -> (forall a, P a -> P' a) ->
  yields m Q' P'.
Proof.
  intros H HQ HP w. destruct (H w) as [Hq Hp].
  split; [apply HQ; exact Hq | eapply Forall_impl; [exact HP | exact Hp]].
Qed.

Lemma turn_action_ok_allow (a : action) :
  turn_action_ok false a -> turn_action_ok true a.
Proof. destruct a as [[]|[]| | | | | | | |]; simpl; auto. Qed.

Ltac all_ok :=
  repeat (first [apply Forall_nil | apply Forall_cons]);
  simpl; repeat split; auto.

Lemma record_audio_yields (env : Env) (fb : bool) :
  yields (record_audio env)
         (fun r => forall path, r = Ok (Some path) -> path = input_wav)
         (turn_action_ok fb).
Proof.
  intros w.
  unfold record_audio, try_except_Exception, bind, call, print, ret,
    result_of, actions_of.
  destruct (sd_rec env) as [[]|e1]; simpl.
  - destruct (sf_write env) as [[]|e2]; simpl.
    + split; [intros p H; inversion H; reflexivity|].
      all_ok.
    + destruct (is_Exception e2); simpl;
        (split; [discriminate | all_ok]).
  - destruct (is_Exception e1); simpl;
      (split; [discriminate | all_ok]).
Qed.

Lemma get_text_input_yields (fb : bool) :
  yields get_text_input (fun _ => True) (turn_action_ok fb).
Proof.
  intros w. split; [exact I|].
  unfold get_text_input, actions_of.
  assert (H : forall entries,
             Forall (turn_action_ok fb) (snd (get_text_input_from entries))).
  { induction entries as [|[text|] rest IH]; simpl.
    - all_ok.
    - destruct (str_eqb (str_lower text) exit_word); [all_ok|].
      destruct (truthy (strip text)); [all_ok|].
      destruct (get_text_input_from rest) as [[r c] o]. simpl in *.
      apply Forall_cons; [exact I|]. apply Forall_cons; [exact I | exact IH].
    - all_ok. }
  specialize (H (console w)).
  destruct (get_text_input_from (console w)) as [[r c] o]. exact H.
Qed.

Lemma turn_acquire_yields (env : Env) (fb : bool) :
  yields (turn_acquire env) (fun _ => True) (turn_action_ok fb).
Proof.
  unfold turn_acquire.
  apply (yields_bind (record_audio_yields env fb)); [|auto].
  intros [path|] Hp.
  - rewrite (Hp path eq_refl). unfold speech_to_text.
    intros w. split; [exact I|].
    unfold bind, call, print, ret, actions_of.
    destruct (transcribe env) as [t|e]; simpl; all_ok.
  - apply (yields_bind (get_text_input_yields fb)); [|auto].
    intros [[text|] d] _; simpl.
    + intros w. split; [exact I | all_ok].
    + intros w. split; [exact I | constructor].
Qed.

Lemma generate_response_in_first_candidates (text emotion reply : str) :
  generate_response text emotion = Ok reply -> In reply first_candidates.
Proof.
  intros H. pose proof (generate_response_ok_key text emotion reply H) as Hkey.
  simpl in Hkey. destruct Hkey as [K|[K|[K|[]]]]; subst emotion;
    vm_compute in H; inversion H; subst reply; vm_compute; tauto.
Qed.

Lemma voice_name_cases (emotion : str) :
  voice_name emotion = u "ar-XA-Standard-B"
  \/ voice_name emotion = u "ar-XA-Standard-D".
Proof.
  unfold voice_name. destruct (str_eqb emotion (u "positive")); auto.
Qed.

Lemma text_to_speech_yields (env : Env) (text emotion : str) (fb : bool) :
  In text first_candidates ->
  yields (text_to_speech env text emotion)
         (fun r => forall path, r = Ok (Some path) -> path = response_mp3)
         (turn_action_ok fb).
Proof.
  intros Ht w.
  pose proof (voice_name_cases emotion) as Hv.
  assert (Hfb : forall w0,
             (forall path, result_of (fallback_tts env text w0)
                           = Ok (Some path) -> path = response_mp3)
             /\ Forall (turn_action_ok fb) (actions_of (fallback_tts env text w0))).
  { intros w0.
    unfold fallback_tts, try_except_Exception, bind, call, print, ret,
      result_of, actions_of.
    destruct (gtts_save env) as [[]|e]; simpl.
    - split; [intros p H; inversion H; reflexivity|].
      all_ok.
    - destruct (is_Exception e); simpl;
        (split; [discriminate | all_ok]). }
  unfold text_to_speech, bind, get_bot.
  destruct (use_google_tts (bot w) && not_None (tts_client (bot w))); simpl.
  - unfold try_except_Exception, bind, call, print, modify, ret.
    destruct (synthesize_speech env) as [[]|e]; simpl.
    + unfold result_of, actions_of. simpl.
      split; [intros p H; inversion H; reflexivity|].
      all_ok.
    + destruct (is_Exception e); simpl.
      * destruct (Hfb (set_use_google_tts false w)) as [Hq Hp].
        unfold result_of, actions_of in *.
        destruct (fallback_tts env text (set_use_google_tts false w))
          as [[r w'] o]. simpl in *.
        split; [exact Hq|]. all_ok.
      * unfold result_of, actions_of. simpl.
        split; [discriminate | all_ok].
  - destruct (Hfb w) as [Hq Hp]. unfold result_of, actions_of in *.
    destruct (fallback_tts env text w) as [[r w'] o]. simpl in *.
    split; assumption.
Qed.

Lemma turn_respond_yields (env : Env) (text : str) (fb : bool) :
  yields (turn_respond env text) (fun _ => True) (turn_action_ok fb).
Proof.
  unfold turn_respond, analyze_emotion.
  apply (yields_bind (Q1 := fun _ => True));
    [apply yields_unit; [exact I | all_ok] | | auto].
  intros ec _.
  apply (yields_bind (Q1 := fun _ => True));
    [apply yields_unit; [exact I | all_ok] | | auto].
  intros _ _.
  apply (yields_bind
           (Q1 := fun r => forall reply, r = Ok reply ->
                                         In reply first_candidates));
    [apply yields_unit; [|constructor] | | auto].
  { intros reply H.
    exact (generate_response_in_first_candidates text (fst ec) reply H). }
  intros response Hr. specialize (Hr response eq_refl).
  apply (yields_bind (Q1 := fun _ => True));
    [apply yields_unit; [exact I | all_ok] | | auto].
  intros _ _.
  apply (yields_bind (text_to_speech_yields env response (fst ec) fb Hr));
    [|auto].
  intros audio Ha.
  apply (yields_bind (Q1 := fun _ => True)); [| | auto].
  - unfold sf_read_file. destruct audio as [path|].
    + rewrite (Ha path eq_refl).
      apply yields_unit; [exact I | all_ok].
    + apply yields_unit; [exact I | all_ok].
  - intros _ _.
    apply (yields_bind (Q1 := fun _ => True));
      [apply yields_unit; [exact I | all_ok] | | auto].
    intros _ _. apply yields_unit; [exact I | constructor].
Qed.

Lemma turn_feedback_yields (env : Env) (text response : str) :
  yields (turn_feedback env text response) (fun _ => True)
         (turn_action_ok true).
Proof.
  intros w. split; [exact I|].
  unfold turn_feedback, bind, input, save_feedback, modify, ret, actions_of.
  destruct (console w) as [|[entry|] rest]; simpl; try (all_ok).
  destruct (negb (str_eqb (str_lower entry) yes_word)); simpl;
    [|all_ok].
  destruct rest as [|[correction|] rest']; simpl; all_ok.
Qed.

Lemma loop_body_yields (env : Env) :
  yields (loop_body env) (fun _ => True) (turn_action_ok true).
Proof.
  unfold loop_body.
  apply (yields_bind (turn_acquire_yields env true)); [|auto].
  intros [text|] _; [|apply yields_unit; [exact I | constructor]].
  apply (yields_bind (turn_respond_yields env text true)); [|auto].
  intros response _.
  apply (yields_bind (turn_feedback_yields env text response)); [|auto].
  intros _ _. apply yields_unit; [exact I | constructor].
Qed.

Lemma while_true_yields (script : list Env) :
  yields (while_true script) (fun _ => True) (turn_action_ok true).
Proof.
  induction script as [|env rest IH]; simpl.
  - apply yields_unit; [exact I | constructor].
  - apply (yields_bind (loop_body_yields env)); [|auto].
    intros [|] _; [exact IH | apply yields_unit; [exact I | constructor]].
Qed.

Lemma main_actions (script : list Env) (w : World) :
  (fst (fst (main script w)) = Interrupted <->
   result_of (while_true script w) = Raise KeyboardInterrupt)
  /\ (fst (fst (main script w)) = Interrupted ->
      snd (main script w)
      = actions_of (while_true script w)
          ++ [Stdout Msg_training;
              Stdout (Msg_saved
                        (List.length
                           (feedback_db (bot (snd (fst (main script w)))))))])
  /\ (fst (fst (main script w)) <> Interrupted ->
      snd (main script w) = actions_of (while_true script w)).
Proof.
  assert (Hst : forall rest, result_of (while_true rest w) <> Ok Interrupted).
  { clear. intros rest. revert w.
    induction rest as [|env rest IH]; intros w; simpl; [discriminate|].
    unfold bind, result_of in *.
    destruct (loop_body env w) as [[[[|]|e] w1] o1]; simpl;
      try discriminate.
    specialize (IH w1).
    destruct (while_true rest w1) as [[r w2] o2]. exact IH. }
  specialize (Hst script).
  unfold main, result_of, actions_of in *.
  destruct (while_true script w) as [[[st|e] w1] o1]; simpl in *.
  - split; [split; [congruence | discriminate]|].
    split; [congruence | reflexivity].
  - destruct e; simpl;
      (split; [split; [try discriminate; reflexivity
                      | try discriminate; reflexivity]|]);
      (split; [try discriminate; reflexivity
              | try reflexivity; intros H; exfalso; apply H; reflexivity]).
Qed.



Lemma turn_actions_no_report (o : list action) (a : action) :
  Forall (turn_action_ok true) o -> In a o ->
  a <> Stdout Msg_training /\ forall n, a <> Stdout (Msg_saved n).
Proof.
  intros Hall Hin. rewrite Forall_forall in Hall. specialize (Hall a Hin).
  split; [|intros n]; intros ->; exact Hall.
Qed.

(** X20: the closing report (the training notice and the number of
    feedback entries) is printed exactly when the loop is stopped by
    [KeyboardInterrupt]; it then ends the output and gives the length of the
    final [feedback_db].  A run left by a typed "exit", or ended by an
    uncaught exception, prints no report at all. *)
Theorem shutdown_report_only_on_interrupt (script : list Env) (w : World) :
  (fst (fst (main script w)) = Interrupted <->
   result_of (while_true script w) = Raise KeyboardInterrupt)
  /\ (fst (fst (main script w)) = Interrupted ->
      exists o,
        snd (main script w)
        = o ++ [Stdout Msg_training;
                Stdout (Msg_saved
                          (List.length
                             (feedback_db (bot (snd (fst (main script w)))))))]
        /\ forall a, In a o ->
                     a <> Stdout Msg_training /\
                     forall n, a <> Stdout (Msg_saved n))
  /\ (fst (fst (main script w)) <> Interrupted ->
      forall a, In a (snd (main script w)) ->
                a <> Stdout Msg_training /\ forall n, a <> Stdout (Msg_saved n)).
Proof.
  destruct (main_actions script w) as [Hiff [Hi Hn]].
  destruct (while_true_yields script w) as [_ Hall].
  split; [exact Hiff|]. split.
  - intros E. exists (actions_of (while_true script w)).
    split; [exact (Hi E)|].
    intros a Hin. exact (turn_actions_no_report _ a Hall Hin).
  - intros E a Hin. rewrite (Hn E) in Hin.
    exact (turn_actions_no_report _ a Hall Hin).
Qed.

Lemma shutdown_report_only_on_interrupt_witness :
  Stdout Msg_recording <> Stdout Msg_training.
Proof.
  refine (proj1 (proj2 (proj2 (shutdown_report_only_on_interrupt
                                 [env_no_mic (u "neutral")]
                                 (mkWorld bot_fallback [Line (u "exit")])))
                       _ (Stdout Msg_recording) _)).
  - vm_compute. discriminate.
  - vm_compute. auto.
Defined.

Lemma text_to_speech_path (env : Env) (text emotion : str) (w : World)
      (path : str) :
  result_of (text_to_speech env text emotion w) = Ok (Some path) ->
  path = response_mp3.
Proof.
  assert (Hfb : forall w0, result_of (fallback_tts env text w0) = Ok (Some path)
                           -> path = response_mp3).
  { intros w0.
    unfold fallback_tts, try_except_Exception, bind, call, print, ret,
      result_of.
    destruct (gtts_save env) as [[]|e]; simpl;
      [intros H; inversion H; reflexivity|].
    destruct (is_Exception e); simpl; discriminate. }
  unfold text_to_speech, bind, get_bot.
  destruct (use_google_tts (bot w) && not_None (tts_client (bot w))); simpl.
  - unfold try_except_Exception, bind, call, print, modify, ret.
    destruct (synthesize_speech env) as [[]|e]; simpl.
    + unfold result_of. simpl. intros H. inversion H. reflexivity.
    + destruct (is_Exception e); simpl; [|discriminate].
      specialize (Hfb (set_use_google_tts false w)). unfold result_of in *.
      destruct (fallback_tts env text (set_use_google_tts false w))
        as [[r w'] o]. exact Hfb.
  - specialize (Hfb w). unfold result_of in *.
    destruct (fallback_tts env text w) as [[r w'] o]. exact Hfb.
Qed.

(** When [turn_respond] returns, the file was read and played. *)
Lemma turn_respond_returns (env : Env) (text response : str) (w : World) :
  result_of (turn_respond env text w) = Ok response ->
  sf_read env = Ok tt /\ sd_play env = Ok tt
  /\ In response first_candidates
  /\ In (Sf_read (Some response_mp3)) (actions_of (turn_respond env text w))
  /\ In Sd_play (actions_of (turn_respond env text w)).
Proof.
  unfold turn_respond, analyze_emotion, bind, call, print, ret,
    result_of, actions_of.
  destruct (sentiment_analyzer env) as [[label conf]|e]; simpl;
    [|discriminate].
  destruct (generate_response text label) as [r|e] eqn:G; simpl;
    [|discriminate].
  pose proof (generate_response_in_first_candidates text label r G) as Hr.
  pose proof (text_to_speech_path env r label w) as Hp.
  unfold result_of in Hp.
  destruct (text_to_speech env r label w) as [[[audio|e] w1] o1]; simpl;
    [|discriminate].
  unfold sf_read_file, call.
  destruct audio as [path|]; simpl; [|discriminate].
  rewrite (Hp path eq_refl).
  destruct (sf_read env) as [[]|e]; simpl; [|discriminate].
  destruct (sd_play env) as [[]|e]; simpl; [|discriminate].
  intros H. inversion H; subst.
  split; [reflexivity|]. split; [reflexivity|]. split; [exact Hr|].
  split; right; right; right; apply in_or_app; right;
    [left; reflexivity | right; left; reflexivity].
Qed.

Lemma no_feedback_prompt (o : list action) :
  Forall (turn_action_ok false) o -> ~ In (Input Prompt_was_good) o.
Proof.
  intros Hall Hin. rewrite Forall_forall in Hall.
  specialize (Hall _ Hin). discriminate Hall.
Qed.

(** X21: the feedback prompt of a turn appears only after
    ["response.mp3"] was read and played without error; a turn that failed
    anywhere before never asks for feedback. *)
Theorem feedback_prompt_after_playback (env : Env) (w : World) :
  In (Input Prompt_was_good) (actions_of (loop_body env w)) ->
  sf_read env = Ok tt /\ sd_play env = Ok tt
  /\ exists before after,
      actions_of (loop_body env w)
      = before ++ Input Prompt_was_good :: after
      /\ In (Sf_read (Some response_mp3)) before /\ In Sd_play before
      /\ ~ In (Input Prompt_was_good) before.
Proof.
  unfold loop_body, bind, actions_of.
  destruct (turn_acquire_yields env false w) as [_ Ha].
  unfold actions_of in Ha.
  destruct (turn_acquire env w) as [[[[text|]|e] wa] oa]; simpl;
    try (intros H; exfalso; try rewrite app_nil_r in H;
         exact (no_feedback_prompt oa Ha H)).
  destruct (turn_respond_yields env text false wa) as [_ Hr].
  pose proof (fun r => turn_respond_returns env text r wa) as Hret.
  unfold result_of, actions_of in *.
  destruct (turn_respond env text wa) as [[[response|e] wr] orr];
    simpl in *.
  - destruct (Hret response eq_refl) as (Hsf & Hsd & _ & Hin1 & Hin2).
    assert (Hfb : exists rest,
               snd (turn_feedback env text response wr)
               = Input Prompt_was_good :: rest).
    { unfold turn_feedback, bind, input, save_feedback, modify, ret.
      destruct (console wr) as [|[entry|] rest]; simpl;
        try (eexists; reflexivity).
      destruct (negb (str_eqb (str_lower entry) yes_word)); simpl;
        [|eexists; reflexivity].
      destruct rest as [|[c|] rest']; simpl; eexists; reflexivity. }
    destruct Hfb as [rest Hfb].
    destruct (turn_feedback env text response wr) as [[[[]|e] wf] o2];
      simpl in *; subst o2; intros _;
      (split; [exact Hsf|]; split; [exact Hsd|]);
      [exists (oa ++ orr), (rest ++ []) | exists (oa ++ orr), rest];
      (split; [rewrite <- app_assoc; reflexivity|]);
      (split; [apply in_or_app; right; assumption|]);
      (split; [apply in_or_app; right; assumption|]);
      intros H; apply in_app_or in H; destruct H as [H|H];
      [exact (no_feedback_prompt oa Ha H) | exact (no_feedback_prompt orr Hr H)
      | exact (no_feedback_prompt oa Ha H) | exact (no_feedback_prompt orr Hr H)].
  - intros H. exfalso. apply in_app_or in H. destruct H as [H|H];
      [exact (no_feedback_prompt oa Ha H) | exact (no_feedback_prompt orr Hr H)].
Qed.

Lemma feedback_prompt_after_playback_witness :
  sf_read (env_ok (u "مرحبا") (u "neutral")) = Ok tt
  /\ sd_play (env_ok (u "مرحبا") (u "neutral")) = Ok tt
  /\ exists before after,
      actions_of (loop_body (env_ok (u "مرحبا") (u "neutral"))
                            (mkWorld bot_fallback [Line (u "y")]))
      = before ++ Input Prompt_was_good :: after
      /\ In (Sf_read (Some response_mp3)) before /\ In Sd_play before
      /\ ~ In (Input Prompt_was_good) before.
Proof.
  apply (feedback_prompt_after_playback
           (env_ok (u "مرحبا") (u "neutral"))
           (mkWorld bot_fallback [Line (u "y")])).
  vm_compute. tauto.
Defined.

(** ** Spoken and typed input *)

(** X22: spoken and typed input are treated differently.  A transcript is
    stripped of diacritics and tagged by [detect_dialect]; a typed entry is
    passed on exactly as typed and tagged ['msa'] without the detector being
    consulted, whatever keywords it contains. *)
Theorem typed_input_skips_detection
  (env : Env) (w : World) (text : str) (rest : list console_event) :
  (capture_ok env -> transcribe env = Ok text ->
   turn_acquire env w
   = (Ok (Some (dediac_ar text)), w,
      [Stdout Msg_recording; Sd_rec; Stdout Msg_recording_complete;
       Sf_write input_wav; Transcribe input_wav;
       Stdout (Msg_detected_dialect (detect_dialect text));
       Stdout (Msg_user_voice (dediac_ar text) (detect_dialect text))]))
  /\ (result_of (record_audio env w) = Ok None ->
      console w = Line text :: rest ->
      forallb isspace text = false -> str_lower text <> exit_word ->
      result_of (turn_acquire env w) = Ok (Some text)
      /\ state_of (turn_acquire env w) = set_console rest w
      /\ In (Stdout (Msg_user_text text (Some msa)))
            (actions_of (turn_acquire env w))
      /\ forall d, ~ In (Stdout (Msg_detected_dialect d))
                       (actions_of (turn_acquire env w))).
Proof.
  split.
  - intros [H1 H2] Ht.
    unfold turn_acquire, record_audio, speech_to_text, try_except_Exception,
      bind, call, print, ret.
    rewrite H1. simpl. rewrite H2. simpl. rewrite Ht. reflexivity.
  - intros Hnone Hc Hnb Hne.
    assert (Hg : get_text_input w
                 = (Ok (Some text, Some msa), set_console rest w,
                    [Input Prompt_enter_text])).
    { unfold get_text_input. rewrite Hc. simpl.
      apply str_eqb_neq in Hne. rewrite Hne.
      apply strip_truthy in Hnb. rewrite Hnb. reflexivity. }
    revert Hnone.
    unfold turn_acquire, record_audio, try_except_Exception, bind, call,
      print, ret, result_of, state_of, actions_of.
    destruct (sd_rec env) as [[]|e1]; simpl.
    + destruct (sf_write env) as [[]|e2]; simpl; [discriminate|].
      destruct (is_Exception e2); simpl; [|discriminate].
      intros _. rewrite Hg. simpl.
      split; [reflexivity|]. split; [reflexivity|].
      split; [tauto|]. intros d H. intuition discriminate.
    + destruct (is_Exception e1); simpl; [|discriminate].
      intros _. rewrite Hg. simpl.
      split; [reflexivity|]. split; [reflexivity|].
      split; [tauto|]. intros d H. intuition discriminate.
Qed.

Lemma typed_input_skips_detection_witness :
  result_of (turn_acquire (env_no_mic (u "neutral"))
                          (mkWorld bot_fallback [Line mish_with_kasra]))
  = Ok (Some mish_with_kasra)
  /\ turn_acquire (env_ok mish_with_kasra (u "neutral"))
                  (mkWorld bot_fallback [])
     = (Ok (Some (u "مش")), mkWorld bot_fallback [],
        [Stdout Msg_recording; Sd_rec; Stdout Msg_recording_complete;
         Sf_write input_wav; Transcribe input_wav;
         Stdout (Msg_detected_dialect msa);
         Stdout (Msg_user_voice (u "مش") msa)]).
Proof.
  split.
  - apply (proj2 (typed_input_skips_detection
                    (env_no_mic (u "neutral"))
                    (mkWorld bot_fallback [Line mish_with_kasra])
                    mish_with_kasra [])).
    + reflexivity.
    + reflexivity.
    + reflexivity.
    + vm_compute. discriminate.
  - apply (proj1 (typed_input_skips_detection
                    (env_ok mish_with_kasra (u "neutral"))
                    (mkWorld bot_fallback []) mish_with_kasra [])).
    + split; reflexivity.
    + reflexivity.
Defined.

(** ** A turn in which everything works *)

(** X23: a spoken turn in which every call succeeds, on an object whose
    flag is cleared, answered "y": the stripped transcript is classified,
    the reply for the label is sent to gTTS, read back and played, the
    feedback prompt reads one console entry, the object is left as it was
    and the loop goes on. *)
Theorem spoken_turn_accepted
  (env : Env) (w : World) (transcript label reply entry : str)
  (confidence : Q) (rest : list console_event) :
  capture_ok env ->
  transcribe env = Ok transcript ->
  sentiment_analyzer env = Ok (label, confidence) ->
  generate_response (dediac_ar transcript) label = Ok reply ->
  use_google_tts (bot w) = false ->
  gtts_save env = Ok tt -> sf_read env = Ok tt -> sd_play env = Ok tt ->
  console w = Line entry :: rest ->
  str_lower entry = yes_word ->
  loop_body env w
  = (Ok Continue, set_console rest w,
     [Stdout Msg_recording; Sd_rec; Stdout Msg_recording_complete;
      Sf_write input_wav; Transcribe input_wav;
      Stdout (Msg_detected_dialect (detect_dialect transcript));
      Stdout (Msg_user_voice (dediac_ar transcript)
                (detect_dialect transcript));
      Classify (dediac_ar transcript);
      Stdout (Msg_detected_emotion label confidence);
      Stdout (Msg_bot reply);
      GTTS reply (u "ar"); Sf_read (Some response_mp3); Sd_play;
      Input Prompt_was_good]).
Proof.
  intros [H1 H2] Ht Hs Hg Hf Hgt Hsf Hsd Hc Hy.
  assert (Ha : turn_acquire env w
               = (Ok (Some (dediac_ar transcript)), w,
                  [Stdout Msg_recording; Sd_rec; Stdout Msg_recording_complete;
                   Sf_write input_wav; Transcribe input_wav;
                   Stdout (Msg_detected_dialect (detect_dialect transcript));
                   Stdout (Msg_user_voice (dediac_ar transcript)
                             (detect_dialect transcript))])).
  { unfold turn_acquire, record_audio, speech_to_text, try_except_Exception,
      bind, call, print, ret.
    rewrite H1. simpl. rewrite H2. simpl. rewrite Ht. reflexivity. }
  assert (Hr : turn_respond env (dediac_ar transcript) w
               = (Ok reply, w,
                  [Classify (dediac_ar transcript);
                   Stdout (Msg_detected_emotion label confidence);
                   Stdout (Msg_bot reply);
                   GTTS reply (u "ar"); Sf_read (Some response_mp3);
                   Sd_play])).
  { unfold turn_respond, analyze_emotion, bind, call, print, ret.
    rewrite Hs. simpl. rewrite Hg. simpl.
    rewrite (text_to_speech_flag_cleared env reply label w Hf).
    unfold fallback_tts, try_except_Exception, bind, call, ret.
    rewrite Hgt. simpl. rewrite Hsf. simpl. rewrite Hsd. reflexivity. }
  assert (Hfb : turn_feedback env (dediac_ar transcript) reply w
                = (Ok tt, set_console rest w, [Input Prompt_was_good])).
  { unfold turn_feedback, bind, input. rewrite Hc. simpl.
    rewrite Hy, str_eqb_refl. reflexivity. }
  unfold loop_body, bind. rewrite Ha, Hr, Hfb. reflexivity.
Qed.

Lemma spoken_turn_accepted_witness :
  fst (fst (loop_body (env_ok (u "مش عارف") (u "negative"))
                      (mkWorld bot_fallback [Line (u "Y")])))
  = Ok Continue.
Proof.
  refine (f_equal (fun x => fst (fst x))
            (spoken_turn_accepted
               (env_ok (u "مش عارف") (u "negative"))
               (mkWorld bot_fallback [Line (u "Y")])
               (u "مش عارف") (u "negative")
               (u "أنا آسف لسماع ذلك. هل تريد التحدث أكثر؟") (u "Y")
               (9 # 10) [] _ eq_refl eq_refl eq_refl eq_refl eq_refl eq_refl
               eq_refl eq_refl eq_refl)).
  split; reflexivity.
Defined.
